(** * Metrics aggregation of NeMo-Skills: [pipeline/compute_metrics.py]

    A shallow embedding of the three benchmark evaluators ([MathEval],
    [CodeEval], [IFEval]) and of the streaming driver [compute_metrics],
    followed by the properties of the aggregation engine.

    Conventions of the embedding.
    - A record read from a prediction file is the Python value built by
      [json.loads]; it is modelled by [pyval].  JSON numbers are the integers
      (a fractional number does not occur in a judgment record).
    - A Python exception is a value of [exn]; a computation that may raise
      has type [result A].  An exception aborts the enclosing call, so a
      method that raises returns no state.
    - Python [int] is [Z] and Python [float] is the binary64 [float] of the
      kernel.  [a / b] on two [int]s is the quotient of their conversions to
      [float], which is what Python computes when both are below [2^53] in
      magnitude, as counts of records are; the statements below are about
      which call returns and which raises, and about values on such
      counts.
    - [defaultdict(int)] is a [gmap string Z] read with default [0]. *)

From Stdlib Require Import ZArith Lia PrimFloat.
From Stdlib Require Uint63 DecimalString DecimalZ DecimalPos.
From stdpp Require Import gmap strings list.
From Stdlib Require Import Ascii.

Local Open Scope Z_scope.
Local Set Warnings "-register-all".

(** ** Python values and exceptions *)

Inductive pyval : Type :=
| PNone
| PBool (b : bool)
| PInt (z : Z)
| PStr (s : string)
| PList (l : list pyval)
| PDict (items : list (string * pyval)).

Inductive exn : Type :=
| RuntimeError (msg : string)
| ValueError (msg : string)
| KeyError
| TypeError
| IndexError
| AttributeError
| ZeroDivisionError
| JSONDecodeError
| RecursionError.

Inductive result (A : Type) : Type :=
| Ok (a : A)
| Raise (e : exn).
Arguments Ok {A} a.
Arguments Raise {A} e.

Definition bind {A B} (m : result A) (k : A -> result B) : result B :=
  match m with
  | Ok a => k a
  | Raise e => Raise e
  end.

Notation "'let!' x ':=' m 'in' k" := (bind m (fun x => k))
  (at level 10, x name, m at level 100, k at level 200).

(** Evaluates [f] on the elements from left to right, the way a list
    comprehension does, and stops at the first exception. *)
Fixpoint traverse {A B} (f : A -> result B) (l : list A) : result (list B) :=
  match l with
  | [] => Ok []
  | x :: l' => let! y := f x in let! ys := traverse f l' in Ok (y :: ys)
  end.

(** Truth value of an object: [bool(v)]. *)
Definition truthy (v : pyval) : bool :=
  match v with
  | PNone => false
  | PBool b => b
  | PInt z => negb (z =? 0)
  | PStr s => negb (String.eqb s "")
  | PList l => match l with [] => false | _ => true end
  | PDict items => match items with [] => false | _ => true end
  end.

(** [v is None]. *)
Definition is_None (v : pyval) : bool :=
  match v with PNone => true | _ => false end.

(** The items of a dict are kept in insertion order; a key is looked up at
    its first item. *)
Fixpoint assoc (key : string) (items : list (string * pyval)) : option pyval :=
  match items with
  | [] => None
  | (k, v) :: rest => if String.eqb key k then Some v else assoc key rest
  end.

(** [v[key]] for a string [key]. *)
Definition getitem (v : pyval) (key : string) : result pyval :=
  match v with
  | PDict items =>
      match assoc key items with
      | Some x => Ok x
      | None => Raise KeyError
      end
  | _ => Raise TypeError
  end.

Definition is_str (key : string) (v : pyval) : bool :=
  match v with PStr s => String.eqb key s | _ => false end.

(** [key in v] for a string [key]: a key of a dict, an element of a list, a
    substring of a string; other values are not containers. *)
Definition contains (key : string) (v : pyval) : result bool :=
  match v with
  | PDict items => Ok (match assoc key items with Some _ => true | None => false end)
  | PList l => Ok (existsb (is_str key) l)
  | PStr s => Ok (match String.index 0 key s with Some _ => true | None => false end)
  | _ => Raise TypeError
  end.

(** [n + v] for an [int] [n]: a [bool] counts as [0] or [1]. *)
Definition int_add (n : Z) (v : pyval) : result Z :=
  match v with
  | PBool b => Ok (n + Z.b2z b)
  | PInt z => Ok (n + z)
  | _ => Raise TypeError
  end.

(** [len(v)]. *)
Definition py_len (v : pyval) : result nat :=
  match v with
  | PList l => Ok (length l)
  | PStr s => Ok (String.length s)
  | PDict items => Ok (length items)
  | _ => Raise TypeError
  end.

(** [v[i]] for a non-negative integer [i]. *)
Definition index (v : pyval) (i : nat) : result pyval :=
  match v with
  | PList l => match l !! i with Some x => Ok x | None => Raise IndexError end
  | PStr s =>
      match String.get i s with
      | Some c => Ok (PStr (String c EmptyString))
      | None => Raise IndexError
      end
  | PDict _ => Raise KeyError
  | _ => Raise TypeError
  end.

Fixpoint chars (s : string) : list pyval :=
  match s with
  | EmptyString => []
  | String c s' => PStr (String c EmptyString) :: chars s'
  end.

(** The elements that [iter(v)] yields. *)
Definition py_iter (v : pyval) : result (list pyval) :=
  match v with
  | PList l => Ok l
  | PStr s => Ok (chars s)
  | PDict items => Ok (map (fun kv => PStr (fst kv)) items)
  | _ => Raise TypeError
  end.

(** [s.split(":")[0]]: the part of [s] before its first colon. *)
Fixpoint before_colon (s : string) : string :=
  match s with
  | EmptyString => EmptyString
  | String c s' =>
      if Ascii.eqb c ":"%char then EmptyString else String c (before_colon s')
  end.

Definition split_colon_0 (v : pyval) : result string :=
  match v with
  | PStr s => Ok (before_colon s)
  | _ => Raise AttributeError
  end.

(** ** [collections.Counter] on pairs, as [MathEval.update] uses it

    A key of a [Counter] is hashable: a list or a dict is not.  Two keys are
    the same key when they are equal, and [True == 1], [False == 0]. *)

Definition hashable (v : pyval) : bool :=
  match v with
  | PList _ | PDict _ => false
  | _ => true
  end.

Definition py_eq (a b : pyval) : bool :=
  match a, b with
  | PNone, PNone => true
  | PStr s, PStr t => String.eqb s t
  | PBool x, PBool y => Bool.eqb x y
  | PBool x, PInt z | PInt z, PBool x => Z.b2z x =? z
  | PInt y, PInt z => y =? z
  | _, _ => false
  end.

Definition pair_eq (p q : pyval * pyval) : bool :=
  py_eq (fst p) (fst q) && py_eq (snd p) (snd q).

(** [counter[p] += 1]: a key keeps the place of its first insertion. *)
Fixpoint counter_incr (p : pyval * pyval) (c : list ((pyval * pyval) * nat))
  : list ((pyval * pyval) * nat) :=
  match c with
  | [] => [(p, 1%nat)]
  | (q, n) :: rest =>
      if pair_eq q p then (q, S n) :: rest else (q, n) :: counter_incr p rest
  end.

(** [Counter(l)]: hashes and counts the elements in order. *)
Fixpoint Counter_from (c : list ((pyval * pyval) * nat)) (l : list (pyval * pyval))
  : result (list ((pyval * pyval) * nat)) :=
  match l with
  | [] => Ok c
  | p :: l' =>
      if hashable (fst p) && hashable (snd p)
      then Counter_from (counter_incr p c) l'
      else Raise TypeError
  end.

Definition Counter (l : list (pyval * pyval)) : result (list ((pyval * pyval) * nat)) :=
  Counter_from [] l.

(** [max(items, key=count)]: the first item of the highest count. *)
Fixpoint first_max (best : (pyval * pyval) * nat) (c : list ((pyval * pyval) * nat))
  : (pyval * pyval) * nat :=
  match c with
  | [] => best
  | x :: rest => first_max (if (snd best <? snd x)%nat then x else best) rest
  end.

(** [c.most_common(1)]. *)
Definition most_common_1 (c : list ((pyval * pyval) * nat)) : list ((pyval * pyval) * nat) :=
  match c with
  | [] => []
  | x :: rest => [first_max x rest]
  end.

(** ** Metrics *)

Inductive metric : Type :=
| MInt (z : Z)
| MFloat (f : float).

(** [float(z)], for [z] below [2^53] in magnitude, where the conversion is
    exact.  (Beyond [2^63] the conversion below wraps; no statement of this
    file depends on the value of a quotient of such integers.) *)
Definition float_of_int (z : Z) : float :=
  if z <? 0 then (- of_uint63 (Uint63.of_Z (- z)))%float
  else of_uint63 (Uint63.of_Z z).

(** [a / b * 100.0] on two [int]s: Python divides two [int]s into the
    correctly rounded quotient, which is the quotient of their conversions
    when both are below [2^53] in magnitude.  (On integers too large for a
    [float] Python raises [OverflowError]; counts of records are not.) *)
Definition percent (a b : Z) : result float :=
  if b =? 0 then Raise ZeroDivisionError
  else Ok (float_of_int a / float_of_int b * 100)%float.

(** ** The aggregation modes are strings *)

Definition unsupported_mode (aggregation_mode : string) : exn :=
  ValueError ("Unsupported mode " +:+ aggregation_mode).

(** ** The evaluator interface *)

Class Evaluator (S : Type) : Type := {
  reset : S;
  fill_up_missing : pyval;
  is_incomplete : pyval -> result bool;
  update : S -> list pyval -> string -> result S;
  get_metrics : S -> result (list (string * metric));
}.

(** ** MathEval *)

Module MathEval.

Record state : Type := {
  total_correct : Z;
  total_no_answer : Z;
  total : Z;
}.

Definition fill_up_missing : pyval :=
  PDict [("predicted_answer", PNone); ("is_correct", PBool false)].

Definition is_incomplete (elem : pyval) : result bool :=
  let! a := contains "is_correct" elem in
  if negb a then Ok true
  else let! b := contains "predicted_answer" elem in Ok (negb b).

(** The comprehension of the majority mode: the pairs of the records whose
    answer is not [None]. *)
Fixpoint valid_answers_and_results (predictions : list pyval)
  : result (list (pyval * pyval)) :=
  match predictions with
  | [] => Ok []
  | elem :: rest =>
      let! a := getitem elem "predicted_answer" in
      if is_None a then valid_answers_and_results rest
      else
        let! a' := getitem elem "predicted_answer" in
        let! c := getitem elem "is_correct" in
        let! ps := valid_answers_and_results rest in
        Ok ((a', c) :: ps)
  end.

Definition update (self : state) (predictions : list pyval)
           (aggregation_mode : string) : result state :=
  let total := total self + 1 in
  if String.eqb aggregation_mode "best" then
    let! cs := traverse (fun elem => getitem elem "is_correct") predictions in
    let total_correct := total_correct self + Z.b2z (existsb truthy cs) in
    let! ans := traverse (fun elem => let! a := getitem elem "predicted_answer" in Ok (is_None a))
                    predictions in
    Ok {| total_correct := total_correct;
          total_no_answer :=
            if forallb id ans then total_no_answer self + 1 else total_no_answer self;
          total := total |}
  else if String.eqb aggregation_mode "majority" then
    let! valid := valid_answers_and_results predictions in
    match valid with
    | [] =>
        Ok {| total_correct := total_correct self;
              total_no_answer := total_no_answer self + 1;
              total := total |}
    | _ =>
        let! c := Counter valid in
        match most_common_1 c with
        | (majority_result, _) :: _ =>
            let! total_correct := int_add (total_correct self) (snd majority_result) in
            Ok {| total_correct := total_correct;
                  total_no_answer := total_no_answer self;
                  total := total |}
        | [] => Raise IndexError
        end
    end
  else if String.eqb aggregation_mode "first" then
    match predictions with
    | [] => Raise IndexError
    | first :: _ =>
        let! c := getitem first "is_correct" in
        let! total_correct := int_add (total_correct self) c in
        let! a := getitem first "predicted_answer" in
        Ok {| total_correct := total_correct;
              total_no_answer := total_no_answer self + Z.b2z (is_None a);
              total := total |}
    end
  else Raise (unsupported_mode aggregation_mode).

Definition get_metrics (self : state) : result (list (string * metric)) :=
  let! correct_answer := percent (total_correct self) (total self) in
  let! wrong_answer :=
    percent (total self - total_correct self - total_no_answer self) (total self) in
  let! no_answer := percent (total_no_answer self) (total self) in
  Ok [("num_entries", MInt (total self));
      ("correct_answer", MFloat correct_answer);
      ("wrong_answer", MFloat wrong_answer);
      ("no_answer", MFloat no_answer)].

Definition reset : state :=
  {| total_correct := 0; total_no_answer := 0; total := 0 |}.

End MathEval.

#[export] Instance MathEval_Evaluator : Evaluator MathEval.state := {
  reset := MathEval.reset;
  fill_up_missing := MathEval.fill_up_missing;
  is_incomplete := MathEval.is_incomplete;
  update := MathEval.update;
  get_metrics := MathEval.get_metrics;
}.

(** ** CodeEval *)

Module CodeEval.

Record state : Type := {
  total_correct : Z;
  total_correct_plus : Z;
  total : Z;
}.

Definition fill_up_missing : pyval :=
  PDict [("is_correct", PBool false); ("is_correct-plus", PBool false)].

Definition is_incomplete (elem : pyval) : result bool :=
  let! a := contains "is_correct" elem in
  if negb a then Ok true
  else let! b := contains "is_correct-plus" elem in Ok (negb b).

Definition update (self : state) (predictions : list pyval)
           (aggregation_mode : string) : result state :=
  let total := total self + 1 in
  if String.eqb aggregation_mode "best" then
    let! cs := traverse (fun elem => getitem elem "is_correct") predictions in
    let! ps := traverse (fun elem => getitem elem "is_correct-plus") predictions in
    Ok {| total_correct := total_correct self + Z.b2z (existsb truthy cs);
          total_correct_plus := total_correct_plus self + Z.b2z (existsb truthy ps);
          total := total |}
  else if String.eqb aggregation_mode "first" then
    match predictions with
    | [] => Raise IndexError
    | first :: _ =>
        let! c := getitem first "is_correct" in
        let! total_correct := int_add (total_correct self) c in
        let! p := getitem first "is_correct-plus" in
        let! total_correct_plus := int_add (total_correct_plus self) p in
        Ok {| total_correct := total_correct;
              total_correct_plus := total_correct_plus;
              total := total |}
    end
  else Raise (unsupported_mode aggregation_mode).

Definition get_metrics (self : state) : result (list (string * metric)) :=
  let! passing_base_tests := percent (total_correct self) (total self) in
  let! passing_plus_tests := percent (total_correct_plus self) (total self) in
  Ok [("num_entries", MInt (total self));
      ("passing_base_tests", MFloat passing_base_tests);
      ("passing_plus_tests", MFloat passing_plus_tests)].

Definition reset : state :=
  {| total_correct := 0; total_correct_plus := 0; total := 0 |}.

End CodeEval.

#[export] Instance CodeEval_Evaluator : Evaluator CodeEval.state := {
  reset := CodeEval.reset;
  fill_up_missing := CodeEval.fill_up_missing;
  is_incomplete := CodeEval.is_incomplete;
  update := CodeEval.update;
  get_metrics := CodeEval.get_metrics;
}.

(** ** IFEval *)

Module IFEval.

Definition required_keys : list string :=
  ["follow_instruction_list"; "instruction_id_list"].

(** One of [strict_stats], [loose_stats]. *)
Record stats : Type := {
  prompt_total : Z;
  prompt_correct : Z;
  instruction_total : Z;
  instruction_correct : Z;
  tier0_total : gmap string Z;
  tier0_correct : gmap string Z;
}.

Record state : Type := {
  strict_stats : stats;
  loose_stats : stats;
}.

Definition fill_up_missing : pyval :=
  PDict [("loose_eval", PDict (map (fun key => (key, PList [])) required_keys));
         ("strict_eval", PDict (map (fun key => (key, PList [])) required_keys))].

(** [any([key not in elem[block] for key in self.required_keys])] *)
Definition lacks_required_key (elem : pyval) (block : string) : result bool :=
  let! flags :=
    traverse (fun key => let! d := getitem elem block in
                         let! c := contains key d in Ok (negb c))
             required_keys in
  Ok (existsb id flags).

Definition is_incomplete (elem : pyval) : result bool :=
  let! a := contains "loose_eval" elem in
  let! incomplete :=
    (if negb a then Ok true
     else let! b := contains "strict_eval" elem in Ok (negb b)) in
  if incomplete then Ok true
  else
    let! l := lacks_required_key elem "loose_eval" in
    if l then Ok true
    else
      let! s := lacks_required_key elem "strict_eval" in
      if s then Ok true else Ok false.

(** The comprehension in the loop of [_update_single_stat]:
    [[follow_instruction_list[i] or elem['follow_instruction_list'][i]
      for i in range(len(follow_instruction_list))]].
    The right operand of [or] is evaluated only when the left one is
    false. *)
Definition or_with (follow_instruction_list elem : pyval) : result pyval :=
  let! n := py_len follow_instruction_list in
  let! merged :=
    traverse (fun i =>
                let! x := index follow_instruction_list i in
                if truthy x then Ok x
                else let! other := getitem elem "follow_instruction_list" in
                     index other i)
             (seq 0 n) in
  Ok (PList merged).

(** [for elem in elems: follow_instruction_list = ...] *)
Fixpoint or_all (follow_instruction_list : pyval) (elems : list pyval) : result pyval :=
  match elems with
  | [] => Ok follow_instruction_list
  | elem :: rest =>
      let! merged := or_with follow_instruction_list elem in
      or_all merged rest
  end.

(** [sum(l)] *)
Fixpoint sum_from (acc : Z) (l : list pyval) : result Z :=
  match l with
  | [] => Ok acc
  | x :: rest => let! acc' := int_add acc x in sum_from acc' rest
  end.

Definition incr (key : string) (d : gmap string Z) : gmap string Z :=
  <[key := default 0 (d !! key) + 1]> d.

(** The loop over [zip(instruction_id_list, follow_instruction_list)]. *)
Fixpoint tier0_loop (stats_dict : stats) (pairs : list (pyval * pyval)) : result stats :=
  match pairs with
  | [] => Ok stats_dict
  | (instruction_id, followed_or_not) :: rest =>
      let! instruction_id := split_colon_0 instruction_id in
      let total := incr instruction_id (tier0_total stats_dict) in
      let correct :=
        if truthy followed_or_not
        then incr instruction_id (tier0_correct stats_dict)
        else tier0_correct stats_dict in
      tier0_loop {| prompt_total := prompt_total stats_dict;
                    prompt_correct := prompt_correct stats_dict;
                    instruction_total := instruction_total stats_dict;
                    instruction_correct := instruction_correct stats_dict;
                    tier0_total := total;
                    tier0_correct := correct |} rest
  end.

Definition _update_single_stat (stats_dict : stats) (elems : list pyval) : result stats :=
  match elems with
  | [] => Raise IndexError
  | first :: _ =>
      let! instruction_id_list := getitem first "instruction_id_list" in
      let! follow_instruction_list := getitem first "follow_instruction_list" in
      let! follow_instruction_list := or_all follow_instruction_list elems in
      let! followed := py_iter follow_instruction_list in
      let prompt_correct :=
        if forallb truthy followed
        then prompt_correct stats_dict + 1 else prompt_correct stats_dict in
      let! n := py_len instruction_id_list in
      let! s := sum_from 0 followed in
      let! ids := py_iter instruction_id_list in
      tier0_loop {| prompt_total := prompt_total stats_dict + 1;
                    prompt_correct := prompt_correct;
                    instruction_total := instruction_total stats_dict + Z.of_nat n;
                    instruction_correct := instruction_correct stats_dict + s;
                    tier0_total := tier0_total stats_dict;
                    tier0_correct := tier0_correct stats_dict |}
                 (combine ids followed)
  end.

Definition update (self : state) (predictions : list pyval)
           (aggregation_mode : string) : result state :=
  if String.eqb aggregation_mode "best" then
    let! stricts := traverse (fun pred => getitem pred "strict_eval") predictions in
    let! strict := _update_single_stat (strict_stats self) stricts in
    let! looses := traverse (fun pred => getitem pred "loose_eval") predictions in
    let! loose := _update_single_stat (loose_stats self) looses in
    Ok {| strict_stats := strict; loose_stats := loose |}
  else if String.eqb aggregation_mode "first" then
    match predictions with
    | [] => Raise IndexError
    | first :: _ =>
        let! s := getitem first "strict_eval" in
        let! strict := _update_single_stat (strict_stats self) [s] in
        let! l := getitem first "loose_eval" in
        let! loose := _update_single_stat (loose_stats self) [l] in
        Ok {| strict_stats := strict; loose_stats := loose |}
    end
  else Raise (unsupported_mode aggregation_mode).

Definition get_metrics (self : state) : result (list (string * metric)) :=
  let prompt_total := prompt_total (strict_stats self) in
  let inst_total := instruction_total (strict_stats self) in
  let! prompt_strict_accuracy := percent (prompt_correct (strict_stats self)) prompt_total in
  let! instruction_strict_accuracy :=
    percent (instruction_correct (strict_stats self)) inst_total in
  let! prompt_loose_accuracy := percent (prompt_correct (loose_stats self)) prompt_total in
  let! instruction_loose_accuracy :=
    percent (instruction_correct (loose_stats self)) inst_total in
  Ok [("num_prompts", MInt prompt_total);
      ("num_instructions", MInt inst_total);
      ("prompt_strict_accuracy", MFloat prompt_strict_accuracy);
      ("instruction_strict_accuracy", MFloat instruction_strict_accuracy);
      ("prompt_loose_accuracy", MFloat prompt_loose_accuracy);
      ("instruction_loose_accuracy", MFloat instruction_loose_accuracy)].

Definition empty_stats : stats :=
  {| prompt_total := 0; prompt_correct := 0;
     instruction_total := 0; instruction_correct := 0;
     tier0_total := ∅; tier0_correct := ∅ |}.

Definition reset : state :=
  {| strict_stats := empty_stats; loose_stats := empty_stats |}.

End IFEval.

#[export] Instance IFEval_Evaluator : Evaluator IFEval.state := {
  reset := IFEval.reset;
  fill_up_missing := IFEval.fill_up_missing;
  is_incomplete := IFEval.is_incomplete;
  update := IFEval.update;
  get_metrics := IFEval.get_metrics;
}.

(** ** The streaming driver *)

(** A line of a prediction file, with what [json.loads] makes of its text:
    the value [v] that it returns, or the exception [e] that it raises
    ([JSONDecodeError] on text that is not JSON, [ValueError] on an integer
    literal with more digits than the interpreter converts, [RecursionError]
    on nesting that is too deep).  (A line read from a file is never the
    empty string, so [not line] holds only of the fill value [None] of
    [zip_longest].) *)
Inductive line : Type :=
| Garbled (e : exn)
| Json (v : pyval).

Definition json_loads (text : line) : result pyval :=
  match text with
  | Garbled e => Raise e
  | Json v => Ok v
  end.

(** An open file: its lines and whether [close] was called on it. *)
Record file_handle : Type := {
  content : list line;
  closed : bool;
}.

Definition open (file : list line) : file_handle :=
  {| content := file; closed := false |}.

Definition close (handle : file_handle) : file_handle :=
  {| content := content handle; closed := true |}.

Definition exhausted {A} (it : list A) : bool :=
  match it with [] => true | _ => false end.

(** [itertools.zip_longest]: one tuple per round, made of the next element of
    every iterator ([None] for an exhausted one), until all are exhausted. *)
Fixpoint zip_longest_rounds {A} (rounds : nat) (its : list (list A)) : list (list (option A)) :=
  match rounds with
  | O => []
  | Datatypes.S n =>
      if forallb exhausted its then []
      else map head its :: zip_longest_rounds n (map tail its)
  end.

Definition longest {A} (its : list (list A)) : nat :=
  foldr Nat.max 0%nat (map length its).

Definition zip_longest {A} (its : list (list A)) : list (list (option A)) :=
  zip_longest_rounds (longest its) its.

Definition missing_data : exn := RuntimeError "Some data is missing!".

(** The outcome of the loop of [compute_metrics]: how many times
    [evaluator.update] was called, and the evaluator it leaves or the
    exception that left the loop. *)
Record loop_end (S : Type) : Type := {
  update_calls : nat;
  left_with : result S;
}.
Arguments update_calls {S} _.
Arguments left_with {S} _.

(** What a call of [compute_metrics] leaves: the file handles, the number of
    calls of [evaluator.update], and the value returned or the exception. *)
Record run : Type := {
  file_handles : list file_handle;
  updates : nat;
  returned : result (list (string * metric));
}.

Section Driver.

Context {S : Type} (evaluator : Evaluator S).

(** The body of [for line in lines]: the record that one stream
    contributes to the group. *)
Definition record_of (allow_incomplete : bool) (line : option line) : result pyval :=
  match line with
  | None =>
      if negb allow_incomplete then Raise missing_data else Ok fill_up_missing
  | Some text =>
      let! line_dict := json_loads text in
      if negb (truthy line_dict) then
        if negb allow_incomplete then Raise missing_data else Ok fill_up_missing
      else
        let! incomplete := is_incomplete line_dict in
        if incomplete then
          if negb allow_incomplete then Raise missing_data else Ok fill_up_missing
        else Ok line_dict
  end.

(** [data] for one tuple of lines. *)
Definition collect (allow_incomplete : bool) (lines : list (option line))
  : result (list pyval) :=
  traverse (record_of allow_incomplete) lines.

(** [for idx, lines in enumerate(zip_longest(...))], from index [idx] on,
    with the evaluator in state [self]. *)
Fixpoint loop (allow_incomplete : bool) (max_samples : Z) (aggregation_mode : string)
         (idx : Z) (tuples : list (list (option line))) (self : S) (calls : nat)
  : loop_end S :=
  match tuples with
  | [] => {| update_calls := calls; left_with := Ok self |}
  | lines :: rest =>
      if idx =? max_samples then {| update_calls := calls; left_with := Ok self |}
      else
        match collect allow_incomplete lines with
        | Raise e => {| update_calls := calls; left_with := Raise e |}
        | Ok data =>
            match update self data aggregation_mode with
            | Raise e => {| update_calls := Datatypes.S calls; left_with := Raise e |}
            | Ok self' =>
                loop allow_incomplete max_samples aggregation_mode
                     (idx + 1) rest self' (Datatypes.S calls)
            end
        end
  end.

(** [prediction_jsonl_files] is the list of files that [unroll_files]
    yields, each given by its lines. *)
Definition compute_metrics (prediction_jsonl_files : list (list line))
           (allow_incomplete : bool) (max_samples : Z) (aggregation_mode : string) : run :=
  let file_handles := map open prediction_jsonl_files in
  let e := loop allow_incomplete max_samples aggregation_mode 0
                (zip_longest (map content file_handles)) reset 0%nat in
  match left_with e with
  | Raise exc =>
      {| file_handles := file_handles; updates := update_calls e; returned := Raise exc |}
  | Ok self =>
      {| file_handles := map close file_handles;
         updates := update_calls e;
         returned := get_metrics self |}
  end.

End Driver.

(** ** The job launcher: [nemo_skills/pipeline/generate.py] *)

Module Generate.

(** [str(z)] for an [int]: its decimal digits, after a minus sign when it is
    negative. *)
Definition str_of_int (z : Z) : string :=
  DecimalString.NilZero.string_of_int (Z.to_int z).

(** [str(x)] for a string or [None]. *)
Definition str_of_option (x : option string) : string :=
  match x with
  | Some s => s
  | None => "None"
  end.

(** The local variable [output_file] of [get_cmd]. *)
Definition output_file (output_dir : string) (random_seed : option Z) : string :=
  match random_seed with
  | Some seed => output_dir +:+ "/generation/output-rs" +:+ str_of_int seed +:+ ".jsonl"
  | None => output_dir +:+ "/generation/output.jsonl"
  end.

Definition get_cmd (output_dir extra_arguments : string) (random_seed : option Z)
           (eval_args : option string) : string :=
  let output_file := output_file output_dir random_seed in
  let cmd :=
    "python -m nemo_skills.inference.generate ++skip_filled=True ++output_file="
    +:+ output_file +:+ " " in
  let cmd :=
    match random_seed with
    | Some seed =>
        cmd +:+ ("    ++inference.random_seed=" +:+ str_of_int seed +:+ " "
                 +:+ "    ++inference.temperature=1.0 "
                 +:+ "    ++inference.top_k=0 "
                 +:+ "    ++inference.top_p=0.95 ")
    | None => cmd
    end in
  let cmd := cmd +:+ (" " +:+ extra_arguments +:+ " ") in
  match eval_args with
  | Some args =>
      if String.eqb args "" then cmd
      else cmd +:+ (" && python -m nemo_skills.evaluation.evaluate_results "
                    +:+ "    ++input_files=" +:+ output_file +:+ " "
                    +:+ "    " +:+ args +:+ " ")
  | None => cmd
  end.

(** What ends [generate] early: a failed [assert], or an exception of a
    function it calls. *)
Inductive abort : Type :=
| AssertionError (msg : option string)
| Raised (e : exn).

Inductive outcome (A : Type) : Type :=
| Done (a : A)
| Failed (f : abort).
Arguments Done {A} a.
Arguments Failed {A} f.

Record server_config : Type := {
  model_path : option string;
  server_type : string;
  num_gpus : Z;
  num_nodes : Z;
  server_args : string;
}.

(** The keyword arguments of one call of [add_task]. *)
Record task : Type := {
  cmd : string;
  task_name : string;
  log_dir : string;
  container : pyval;
  partition : option string;
  server : option server_config;
  with_sandbox : bool;
  run_after : option string;
}.

(** [range(start, stop)] *)
Definition range (start stop : Z) : list Z :=
  map (fun i => start + Z.of_nat i) (seq 0 (Z.to_nat (stop - start))).

Section Launcher.

(** The functions of [nemo_skills.pipeline] that [generate] calls: the
    cluster configuration it loads, the mount check, which may raise, and the
    wrapping of the generation command. *)
Context (get_cluster_config : option string -> option string -> result pyval).
Context (check_if_mounted : pyval -> string -> result unit).
Context (get_generation_command : string -> string -> string).

(** The loop over the seeds: the tasks it adds to the experiment. *)
Fixpoint seed_tasks (seeds : list Z) (cluster_config : pyval)
         (output_dir extra_arguments server_address log_dir : string)
         (eval_args partition run_after : option string)
         (server : option server_config) (dependent_jobs : Z) : outcome (list task) :=
  match seeds with
  | [] => Done []
  | seed :: rest =>
      if negb (dependent_jobs =? 0) then Failed (AssertionError None)
      else
        let cmd := get_cmd output_dir extra_arguments (Some seed) eval_args in
        match (let! containers := getitem cluster_config "containers" in
               getitem containers "nemo-skills") with
        | Raise e => Failed (Raised e)
        | Ok container =>
            let t := {| cmd := get_generation_command server_address cmd;
                        task_name := "generate-rs" +:+ str_of_int seed;
                        log_dir := log_dir;
                        container := container;
                        partition := partition;
                        server := server;
                        with_sandbox := true;
                        run_after := run_after |} in
            match seed_tasks rest cluster_config output_dir extra_arguments
                             server_address log_dir eval_args partition run_after
                             server dependent_jobs with
            | Done tasks => Done (t :: tasks)
            | Failed f => Failed f
            end
        end
  end.

(** [generate]: the tasks of the experiment that it hands to [run_exp]. *)
Definition generate (ctx_args : list string) (cluster : option string)
           (output_dir : string) (model server_address : option string)
           (server_type : string) (server_gpus : option Z) (server_nodes : Z)
           (server_args : string) (dependent_jobs : Z) (num_random_seeds : option Z)
           (starting_seed : Z)
           (partition eval_args run_after config_dir log_dir : option string)
  : outcome (list task) :=
  let extra_arguments := String.concat " " ctx_args in
  match get_cluster_config cluster config_dir with
  | Raise e => Failed (Raised e)
  | Ok cluster_config =>
  match check_if_mounted cluster_config output_dir with
  | Raise e => Failed (Raised e)
  | Ok _ =>
  match (match log_dir with
         | Some dir =>
             if String.eqb dir "" then Ok (output_dir +:+ "/generation-logs")
             else let! _ := check_if_mounted cluster_config dir in Ok dir
         | None => Ok (output_dir +:+ "/generation-logs")
         end) with
  | Raise e => Failed (Raised e)
  | Ok log_dir =>
  match (match server_address with
         | None =>
             match server_gpus with
             | None =>
                 Failed (AssertionError
                           (Some "Need to specify server_gpus if hosting the model"))
             | Some gpus =>
                 Done ("localhost:5000",
                       Some {| model_path := model;
                               server_type := server_type;
                               num_gpus := gpus;
                               num_nodes := server_nodes;
                               server_args := server_args |},
                       extra_arguments
                       +:+ (" ++server.server_type=" +:+ server_type +:+ " "))
             end
         | Some address =>
             Done (address, None,
                   extra_arguments
                   +:+ (" ++server.server_type=" +:+ server_type
                        +:+ " ++server.base_url=" +:+ address
                        +:+ " ++server.model=" +:+ str_of_option model +:+ " "))
         end) with
  | Failed f => Failed f
  | Done (server_address, server, extra_arguments) =>
      let seeded :=
        match num_random_seeds with
        | Some n => negb (n =? 0)
        | None => false
        end in
      if seeded then
        seed_tasks (range starting_seed (starting_seed + default 0 num_random_seeds))
                   cluster_config output_dir extra_arguments server_address log_dir
                   eval_args partition run_after server dependent_jobs
      else if negb (dependent_jobs =? 0) then Failed (AssertionError None)
      else
        let cmd := get_cmd output_dir extra_arguments None eval_args in
        match (let! containers := getitem cluster_config "containers" in
               getitem containers "nemo-skills") with
        | Raise e => Failed (Raised e)
        | Ok container =>
            Done [{| cmd := get_generation_command server_address cmd;
                     task_name := "generate";
                     log_dir := log_dir;
                     container := container;
                     partition := partition;
                     server := server;
                     with_sandbox := true;
                     run_after := run_after |}]
        end
  end end end end.

End Launcher.

End Generate.

(** ** Notions used in the statements *)

(** How many of [n] tuples, the first of index [idx], come before the index
    [max_samples] at which the loop breaks. *)
Definition before_cutoff (max_samples idx : Z) (n : nat) : nat :=
  if idx <=? max_samples then Nat.min (Z.to_nat (max_samples - idx)) n else n.

(** The three ways in which a stream fails to contribute a record: its line
    is absent, its line parses to a false value, or the parsed record does
    not pass the completeness check of the evaluator. *)
Inductive failure {S : Type} (evaluator : Evaluator S) : option line -> Prop :=
| line_absent : failure evaluator None
| line_falsy (v : pyval) : truthy v = false -> failure evaluator (Some (Json v))
| line_incomplete (v : pyval) :
    is_incomplete v = Ok true -> failure evaluator (Some (Json v)).

(** A line on which the driver, not allowing incomplete data, raises nothing
    but the missing-data error. *)
Definition no_other_exception {S : Type} (evaluator : Evaluator S)
           (line : option line) : Prop :=
  forall e, record_of evaluator false line = Raise e -> e = missing_data.

(** A sequence of calls of [update], one per sample group, under one
    aggregation mode. *)
Fixpoint update_all {S : Type} (evaluator : Evaluator S) (self : S)
         (groups : list (list pyval)) (aggregation_mode : string) : result S :=
  match groups with
  | [] => Ok self
  | group :: rest =>
      let! self' := update self group aggregation_mode in
      update_all evaluator self' rest aggregation_mode
  end.

(** [elem['follow_instruction_list']] is the list [follows] of booleans. *)
Definition has_follow_list (elem : pyval) (follows : list bool) : Prop :=
  getitem elem "follow_instruction_list" = Ok (PList (map PBool follows)).

(** The element-wise [or] of the accumulated list with the list of one more
    record, at the positions of the accumulated list. *)
Fixpoint or_lists (acc follows : list bool) : list bool :=
  match acc, follows with
  | [], _ => []
  | x :: acc', [] => x :: or_lists acc' []
  | x :: acc', y :: follows' => (x || y) :: or_lists acc' follows'
  end.

(** [follows] has an element at every position at which the accumulated list
    is false. *)
Fixpoint readable (acc follows : list bool) : bool :=
  match acc, follows with
  | [], _ => true
  | x :: acc', [] => x && readable acc' []
  | _ :: acc', _ :: follows' => readable acc' follows'
  end.

(** Every list of [lists] is readable where the [or] of the accumulated list
    and of the lists before it is false. *)
Fixpoint all_readable (acc : list bool) (lists : list (list bool)) : bool :=
  match lists with
  | [] => true
  | follows :: rest => readable acc follows && all_readable (or_lists acc follows) rest
  end.

(** How many elements of [l] are the key [p]. *)
Fixpoint occurrences (p : pyval * pyval) (l : list (pyval * pyval)) : nat :=
  match l with
  | [] => 0%nat
  | q :: l' => ((if pair_eq p q then 1 else 0) + occurrences p l')%nat
  end.

Definition hashable_pair (p : pyval * pyval) : bool :=
  hashable (fst p) && hashable (snd p).

(** The counts that [Counter_from] reaches when every element is hashable. *)
Definition tally (c : list ((pyval * pyval) * nat)) (l : list (pyval * pyval))
  : list ((pyval * pyval) * nat) :=
  fold_left (fun c p => counter_incr p c) l c.

(** A line that holds a JSON object. *)
Definition object_line (l : line) : Prop := exists items, l = Json (PDict items).

(** An entry of a tuple of lines that is absent or holds a JSON object. *)
Definition object_or_absent (entry : option line) : Prop :=
  match entry with
  | None => True
  | Some l => object_line l
  end.

(** A record that has the key [key]. *)
Definition has_key (key : string) (elem : pyval) : Prop :=
  exists v, getitem elem key = Ok v.

(** The value of [elem[key]], when there is one, is a boolean. *)
Definition boolean_field (key : string) (elem : pyval) : Prop :=
  forall v, getitem elem key = Ok v -> exists b, v = PBool b.

(** No character of [s] is a colon. *)
Fixpoint colon_free (s : string) : bool :=
  match s with
  | EmptyString => true
  | String c s' => negb (Ascii.eqb c ":"%char) && colon_free s'
  end.

(** ** Sample records *)

Definition math_record (predicted_answer : pyval) (is_correct : bool) : pyval :=
  PDict [("predicted_answer", predicted_answer); ("is_correct", PBool is_correct)].

Definition eval_block (instruction_id_list : list string)
           (follow_instruction_list : list bool) : pyval :=
  PDict [("instruction_id_list", PList (map PStr instruction_id_list));
         ("follow_instruction_list", PList (map PBool follow_instruction_list))].

Definition ifeval_record (strict_eval loose_eval : pyval) : pyval :=
  PDict [("strict_eval", strict_eval); ("loose_eval", loose_eval)].

(** A stream of three answered records. *)
Definition three_lines : list line :=
  [Json (math_record (PStr "4") true);
   Json (math_record (PStr "5") false);
   Json (math_record (PStr "6") true)].

(** An instruction-following record with one instruction, not followed. *)
Definition not_followed : pyval :=
  ifeval_record (eval_block ["punctuation:no_comma"] [false])
                (eval_block ["punctuation:no_comma"] [false]).

(** The evaluation blocks of a group, each given by its two lists. *)
Definition blocks_of (blocks : list (list string * list bool)) : list pyval :=
  map (fun b => eval_block (fst b) (snd b)) blocks.

(** An instruction-following record with one instruction, followed. *)
Definition followed : pyval :=
  ifeval_record (eval_block ["punctuation:no_comma"] [true])
                (eval_block ["punctuation:no_comma"] [true]).

(** A stream of one answered record. *)
Definition one_line : list line := [Json (math_record (PStr "4") true)].

(** A stream of one record of a code benchmark. *)
Definition code_line : list line :=
  [Json (PDict [("is_correct", PBool true); ("is_correct-plus", PBool false)])].

(** Stand-ins for the functions that [generate] calls, for the examples: a
    cluster configuration with a container, a mount check that passes, and
    a generation command left as it is. *)
Definition sample_get_cluster_config (cluster config_dir : option string) : result pyval :=
  Ok (PDict [("containers", PDict [("nemo-skills", PStr "nemo-skills-image")])]).

Definition sample_check_if_mounted (cluster_config : pyval) (path : string) : result unit :=
  Ok tt.

Definition sample_get_generation_command (server_address generation_commands : string)
  : string := generation_commands.

(** A stream whose only line is the empty object. *)
Definition empty_object_line : list line := [Json (PDict [])].

(** * Properties *)

(** ** Auxiliary facts: the result monad *)

Lemma bind_Ok {A B} (m : result A) (k : A -> result B) (b : B) :
  bind m k = Ok b -> exists a, m = Ok a /\ k a = Ok b.
Proof. destruct m as [a|e]; simpl; [eauto | discriminate]. Qed.

Ltac binds :=
  repeat match goal with
         | H : bind ?m _ = Ok _ |- _ =>
             let a := fresh "a" in
             let E := fresh "E" in
             apply bind_Ok in H; destruct H as (a & E & H)
         end.

(** ** Auxiliary facts: [zip_longest] *)

Lemma longest_exhausted {A} (its : list (list A)) :
  forallb exhausted its = true -> longest its = 0%nat.
Proof.
  induction its as [|it its IH]; simpl; [reflexivity|].
  destruct it; simpl; [|discriminate]. exact IH.
Qed.

Lemma longest_not_exhausted {A} (its : list (list A)) :
  forallb exhausted its = false -> (1 <= longest its)%nat.
Proof.
  induction its as [|it its IH]; simpl; [discriminate|].
  destruct it; simpl; intros H; [specialize (IH H)|]; unfold longest in *; simpl; lia.
Qed.

Lemma longest_tail {A} (its : list (list A)) :
  longest (map tail its) = Nat.pred (longest its).
Proof.
  induction its as [|it its IH]; [reflexivity|].
  unfold longest in *. simpl. rewrite IH. destruct it; simpl; lia.
Qed.

Lemma zip_longest_rounds_length {A} (n : nat) (its : list (list A)) :
  (longest its <= n)%nat -> length (zip_longest_rounds n its) = longest its.
Proof.
  revert its; induction n as [|n IH]; intros its Hn; simpl.
  - lia.
  - destruct (forallb exhausted its) eqn:E.
    + symmetry. apply longest_exhausted, E.
    + simpl. rewrite IH; rewrite longest_tail.
      * apply longest_not_exhausted in E. lia.
      * lia.
Qed.

(** The number of tuples is the length of the longest stream. *)
Lemma zip_longest_length {A} (its : list (list A)) :
  length (zip_longest its) = longest its.
Proof. apply zip_longest_rounds_length. lia. Qed.

Lemma content_open (files : list (list line)) :
  map content (map open files) = files.
Proof. induction files; simpl; congruence. Qed.

(** ** Auxiliary facts: the loop *)

Lemma before_cutoff_step (k idx : Z) (n : nat) :
  idx <> k ->
  before_cutoff k idx (Datatypes.S n) = Datatypes.S (before_cutoff k (idx + 1) n).
Proof.
  intros E. unfold before_cutoff.
  destruct (idx <=? k) eqn:L1; destruct (idx + 1 <=? k) eqn:L2;
    try (apply Z.leb_le in L1); try (apply Z.leb_le in L2);
    try (apply Z.leb_gt in L1); try (apply Z.leb_gt in L2); lia.
Qed.

Section LoopFacts.

Context {S : Type} (evaluator : Evaluator S).


(** Exceptions or not, [update] is never called beyond the cutoff. *)
Lemma loop_calls_le allow k mode tuples : forall idx self calls,
  (update_calls (loop evaluator allow k mode idx tuples self calls) <=
   calls + before_cutoff k idx (length tuples))%nat.
Proof.
  induction tuples as [|lines rest IH]; intros idx self calls.
  - simpl. lia.
  - simpl. destruct (idx =? k) eqn:E.
    + simpl. lia.
    + apply Z.eqb_neq in E. rewrite (before_cutoff_step _ _ _ E).
      destruct (collect evaluator allow lines); simpl in *; [|lia].
      destruct (update self a mode); simpl in *; [|lia].
      specialize (IH (idx + 1) a0 (Datatypes.S calls)). lia.
Qed.

End LoopFacts.

(** ** The driver *)

Section DriverFacts.

Context {S : Type} (evaluator : Evaluator S).

Lemma record_of_failure_fatal line :
  failure evaluator line -> record_of evaluator false line = Raise missing_data.
Proof.
  intros [|v Hv|v Hv]; simpl; [reflexivity| |].
  - rewrite Hv. reflexivity.
  - destruct (truthy v); simpl; [|reflexivity]. rewrite Hv. reflexivity.
Qed.

Lemma record_of_failure_allowed line :
  failure evaluator line -> record_of evaluator true line = Ok fill_up_missing.
Proof.
  intros [|v Hv|v Hv]; simpl; [reflexivity| |].
  - rewrite Hv. reflexivity.
  - destruct (truthy v); simpl; [|reflexivity]. rewrite Hv. reflexivity.
Qed.

Lemma collect_failure_fatal before line after :
  Forall (no_other_exception evaluator) before ->
  failure evaluator line ->
  collect evaluator false (before ++ line :: after) = Raise missing_data.
Proof.
  intros Hb Hl. unfold collect.
  induction Hb as [|l before Hl0 Hb IH]; simpl.
  - rewrite (record_of_failure_fatal _ Hl). reflexivity.
  - destruct (record_of evaluator false l) as [v|e] eqn:E; simpl.
    + rewrite IH. reflexivity.
    + rewrite (Hl0 e E). reflexivity.
Qed.

(** A loop that runs through [before] without an exception and without
    reaching the cutoff goes on with the tuples that follow. *)
Lemma loop_app allow k mode before rest : forall idx self calls self',
  (k < idx \/ idx + Z.of_nat (length before) <= k) ->
  left_with (loop evaluator allow k mode idx before self calls) = Ok self' ->
  loop evaluator allow k mode idx (before ++ rest) self calls =
  loop evaluator allow k mode (idx + Z.of_nat (length before)) rest self'
       (calls + length before)%nat.
Proof.
  induction before as [|lines before IH]; intros idx self calls self' Hk H.
  - simpl in *. injection H as <-. f_equal; lia.
  - simpl in H |- *.
    destruct (idx =? k) eqn:E.
    + apply Z.eqb_eq in E. simpl length in Hk. lia.
    + destruct (collect evaluator allow lines); simpl in *; [|discriminate].
      destruct (update self a mode); simpl in *; [|discriminate].
      rewrite (IH (idx + 1) a0 (Datatypes.S calls) self'); [|simpl length in Hk; lia|exact H].
      f_equal; lia.
Qed.

End DriverFacts.

(** C2, as the code has it: [compute_metrics] closes every file handle when
    no exception leaves its loop, that is on normal completion and on the
    break at the [max_samples] cutoff, and then returns what [get_metrics]
    returns; when an exception leaves the loop (the missing-data error among
    them) the call raises it with every handle still open. *)
Theorem handles_closed_unless_loop_raises {S : Type} (evaluator : Evaluator S)
        (files : list (list line)) (allow_incomplete : bool) (max_samples : Z)
        (aggregation_mode : string) :
  let r := compute_metrics evaluator files allow_incomplete max_samples aggregation_mode in
  length (file_handles r) = length files /\
  match left_with (loop evaluator allow_incomplete max_samples aggregation_mode 0
                        (zip_longest files) reset 0%nat) with
  | Ok self =>
      Forall (fun h => closed h = true) (file_handles r) /\ returned r = get_metrics self
  | Raise e =>
      Forall (fun h => closed h = false) (file_handles r) /\ returned r = Raise e
  end.
Proof.
  unfold compute_metrics. rewrite content_open.
  destruct (left_with _) as [self|e]; simpl.
  - repeat split.
    + rewrite !length_map. reflexivity.
    + apply Forall_forall. intros h Hh.
      apply list_elem_of_In, in_map_iff in Hh. destruct Hh as (h' & <- & _). reflexivity.
  - repeat split.
    + rewrite !length_map. reflexivity.
    + apply Forall_forall. intros h Hh.
      apply list_elem_of_In, in_map_iff in Hh. destruct Hh as (h' & <- & _). reflexivity.
Qed.

(** C2 fails as stated: a run that aborts on missing data leaves its stream
    open.  One stream, whose line is the empty object, incomplete data not
    allowed. *)
Lemma handle_left_open_on_missing_data :
  let r := compute_metrics MathEval_Evaluator [empty_object_line] false (-1) "first" in
  returned r = Raise missing_data /\
  file_handles r = [{| content := empty_object_line; closed := false |}].
Proof. split; reflexivity. Qed.

(** C3: with [allow_incomplete=False], under any aggregation mode, a line that
    is absent, parses to a false value or fails the completeness check, met
    at an index that the loop reaches, makes [compute_metrics] raise the
    missing-data error at once: no metrics are returned, and [update] is not
    called for that index.  The index [i] is reached when it lies before the
    cutoff and the loop ran through the indices before it; the line of stream
    [j] is met when no earlier line of the tuple raises another exception. *)
Theorem missing_data_is_fatal {S : Type} (evaluator : Evaluator S)
        (files : list (list line)) (max_samples : Z) (aggregation_mode : string)
        (i j : nat) (lines : list (option line)) (line : option line) (self : S) :
  zip_longest files !! i = Some lines ->
  (max_samples < 0 \/ Z.of_nat i < max_samples) ->
  left_with (loop evaluator false max_samples aggregation_mode 0
                  (take i (zip_longest files)) reset 0%nat) = Ok self ->
  lines !! j = Some line ->
  Forall (no_other_exception evaluator) (take j lines) ->
  failure evaluator line ->
  let r := compute_metrics evaluator files false max_samples aggregation_mode in
  returned r = Raise missing_data /\ updates r = i.
Proof.
  intros Hi Hk Hpre Hj Hbefore Hfail.
  assert (Hlen : length (take i (zip_longest files)) = i).
  { apply length_take_le. apply lookup_lt_Some in Hi. lia. }
  unfold compute_metrics. rewrite content_open.
  rewrite <- (take_drop_middle _ _ _ Hi).
  rewrite (loop_app evaluator false max_samples aggregation_mode _ _ 0 reset 0%nat self);
    [|rewrite Hlen; lia|exact Hpre].
  rewrite Hlen. simpl loop.
  replace (0 + Z.of_nat i =? max_samples) with false by (symmetry; apply Z.eqb_neq; lia).
  rewrite <- (take_drop_middle _ _ _ Hj).
  rewrite (collect_failure_fatal evaluator _ _ _ Hbefore Hfail).
  simpl. split; reflexivity.
Qed.

Lemma missing_data_is_fatal_witness :
  let r := compute_metrics MathEval_Evaluator [three_lines; one_line]
                           false (-1) "best" in
  returned r = Raise missing_data /\ updates r = 1%nat.
Proof.
  apply (missing_data_is_fatal MathEval_Evaluator [three_lines; one_line]
           (-1) "best" 1 1
           [Some (Json (math_record (PStr "5") false)); None] None
           {| MathEval.total_correct := 1; MathEval.total_no_answer := 0;
              MathEval.total := 1 |}).
  - reflexivity.
  - left. lia.
  - reflexivity.
  - reflexivity.
  - constructor; [|constructor].
    intros e He. vm_compute in He. discriminate He.
  - apply line_absent.
Defined.






(** ** Substituted records *)

(** With [allow_incomplete=True] each of the three failures is replaced by
    the placeholder of the evaluator. *)
Lemma failure_is_substituted {S : Type} (evaluator : Evaluator S) (line : option line) :
  failure evaluator line -> record_of evaluator true line = Ok fill_up_missing.
Proof. apply record_of_failure_allowed. Qed.

(** The placeholder of [MathEval], alone in its group, is not counted as
    correct under any mode. *)
Lemma math_placeholder_not_correct (self self' : MathEval.state) (mode : string) :
  MathEval.update self [MathEval.fill_up_missing] mode = Ok self' ->
  MathEval.total_correct self' = MathEval.total_correct self.
Proof.
  unfold MathEval.update.
  destruct (String.eqb mode "best"); [|destruct (String.eqb mode "majority");
                                       [|destruct (String.eqb mode "first")]];
    simpl; intros H; try discriminate H; injection H as <-; simpl; lia.
Qed.

(** Neither is the placeholder of [CodeEval]. *)
Lemma code_placeholder_not_correct (self self' : CodeEval.state) (mode : string) :
  CodeEval.update self [CodeEval.fill_up_missing] mode = Ok self' ->
  CodeEval.total_correct self' = CodeEval.total_correct self /\
  CodeEval.total_correct_plus self' = CodeEval.total_correct_plus self.
Proof.
  unfold CodeEval.update.
  destruct (String.eqb mode "best"); [|destruct (String.eqb mode "first")];
    simpl; intros H; try discriminate H; injection H as <-; simpl; lia.
Qed.

(** C1 fails on [IFEval]: its placeholder has empty instruction lists, and
    [all([])] holds, so a substituted record is counted as a correct prompt;
    and under the best mode the placeholder is indexed beyond its end.
    - The placeholder alone, under the first and the best mode, adds one to
      the strict and to the loose count of correct prompts.
    - One stream of two lines, a record whose instruction is not followed and
      an empty object, [allow_incomplete=True], first mode: half of the
      prompts are reported correct.
    - Two streams, the record above and an empty file, [allow_incomplete=True],
      best mode: the run raises [IndexError]. *)
Theorem ifeval_placeholder_counts_as_correct_prompt :
  (exists self,
     IFEval.update IFEval.reset [IFEval.fill_up_missing] "first" = Ok self /\
     IFEval.prompt_correct (IFEval.strict_stats self) = 1 /\
     IFEval.prompt_correct (IFEval.loose_stats self) = 1) /\
  (exists self,
     IFEval.update IFEval.reset [IFEval.fill_up_missing] "best" = Ok self /\
     IFEval.prompt_correct (IFEval.strict_stats self) = 1 /\
     IFEval.prompt_correct (IFEval.loose_stats self) = 1) /\
  returned (compute_metrics IFEval_Evaluator [[Json not_followed; Json (PDict [])]]
                            true (-1) "first") =
    Ok [("num_prompts", MInt 2);
        ("num_instructions", MInt 1);
        ("prompt_strict_accuracy", MFloat 50);
        ("instruction_strict_accuracy", MFloat 0);
        ("prompt_loose_accuracy", MFloat 50);
        ("instruction_loose_accuracy", MFloat 0)] /\
  returned (compute_metrics IFEval_Evaluator [[Json not_followed]; []]
                            true (-1) "best") = Raise IndexError.
Proof.
  repeat split.
  - eexists; (split; [reflexivity|split; reflexivity]).
  - eexists; (split; [reflexivity|split; reflexivity]).
Qed.

(** ** Division by the number of entries *)

(** C8: for each of the three evaluators, [get_metrics] on a zero count of
    entries raises [ZeroDivisionError]; so does [compute_metrics] over no
    stream at all, and with [max_samples = 0]. *)
Theorem get_metrics_raises_on_zero_total :
  (forall c n,
     MathEval.get_metrics {| MathEval.total_correct := c; MathEval.total_no_answer := n;
                             MathEval.total := 0 |} = Raise ZeroDivisionError) /\
  (forall c p,
     CodeEval.get_metrics {| CodeEval.total_correct := c; CodeEval.total_correct_plus := p;
                             CodeEval.total := 0 |} = Raise ZeroDivisionError) /\
  (forall pc it ic tt tc loose,
     IFEval.get_metrics
       {| IFEval.strict_stats :=
            {| IFEval.prompt_total := 0; IFEval.prompt_correct := pc;
               IFEval.instruction_total := it; IFEval.instruction_correct := ic;
               IFEval.tier0_total := tt; IFEval.tier0_correct := tc |};
          IFEval.loose_stats := loose |} = Raise ZeroDivisionError) /\
  (forall allow k mode,
     returned (compute_metrics MathEval_Evaluator [] allow k mode) = Raise ZeroDivisionError /\
     returned (compute_metrics CodeEval_Evaluator [] allow k mode) = Raise ZeroDivisionError /\
     returned (compute_metrics IFEval_Evaluator [] allow k mode) = Raise ZeroDivisionError) /\
  (forall files allow mode,
     returned (compute_metrics MathEval_Evaluator files allow 0 mode) = Raise ZeroDivisionError /\
     returned (compute_metrics CodeEval_Evaluator files allow 0 mode) = Raise ZeroDivisionError /\
     returned (compute_metrics IFEval_Evaluator files allow 0 mode) = Raise ZeroDivisionError).
Proof.
  repeat split; try reflexivity;
    unfold compute_metrics; rewrite content_open; destruct (zip_longest files); reflexivity.
Qed.

(** ** MathEval *)

(** Every call of [update] that returns counts one more entry. *)
Lemma math_update_total (self self' : MathEval.state) group mode :
  MathEval.update self group mode = Ok self' ->
  MathEval.total self' = MathEval.total self + 1.
Proof.
  unfold MathEval.update.
  destruct (String.eqb mode "best"); [|destruct (String.eqb mode "majority");
                                       [|destruct (String.eqb mode "first")]];
    intros H.
  - binds. injection H as <-. reflexivity.
  - binds. destruct a.
    + injection H as <-. reflexivity.
    + binds. destruct (most_common_1 a0) as [|[m ?] ?]; [discriminate|].
      binds. injection H as <-. reflexivity.
  - destruct group; [discriminate|]. binds. injection H as <-. reflexivity.
  - discriminate.
Qed.

Lemma traverse_is_correct predictions :
  Forall (fun elem => exists c, getitem elem "is_correct" = Ok c) predictions ->
  exists cs, traverse (fun elem => getitem elem "is_correct") predictions = Ok cs /\
             Forall2 (fun elem c => getitem elem "is_correct" = Ok c) predictions cs.
Proof.
  induction 1 as [|elem predictions [c Hc] _ (cs & IH & IH2)]; simpl.
  - exists []. split; [reflexivity|constructor].
  - rewrite Hc, IH. simpl. exists (c :: cs). split; [reflexivity|constructor; assumption].
Qed.

Lemma traverse_all_None predictions :
  Forall (fun elem => getitem elem "predicted_answer" = Ok PNone) predictions ->
  exists ans,
    traverse (fun elem => let! a := getitem elem "predicted_answer" in Ok (is_None a))
             predictions = Ok ans /\ forallb id ans = true.
Proof.
  induction 1 as [|elem predictions Ha _ (ans & IH & IH2)]; simpl.
  - exists []. split; reflexivity.
  - rewrite Ha, IH. simpl. exists (true :: ans). split; [reflexivity|exact IH2].
Qed.

(** C9: under the best mode the two classifications of [MathEval] overlap.
    For a group in which every record has a [None] answer and some record
    has a true [is_correct], one call of [update] adds one to [total_correct]
    and one to [total_no_answer]; from a fresh evaluator, the wrong-answer
    percentage that [get_metrics] then derives is negative. *)
Theorem best_counts_correct_and_no_answer (self : MathEval.state) (predictions : list pyval) :
  Forall (fun elem => getitem elem "predicted_answer" = Ok PNone /\
                      exists c, getitem elem "is_correct" = Ok c) predictions ->
  Exists (fun elem => exists c, getitem elem "is_correct" = Ok c /\ truthy c = true)
         predictions ->
  MathEval.update self predictions "best" =
    Ok {| MathEval.total_correct := MathEval.total_correct self + 1;
          MathEval.total_no_answer := MathEval.total_no_answer self + 1;
          MathEval.total := MathEval.total self + 1 |} /\
  exists self',
    MathEval.update MathEval.reset predictions "best" = Ok self' /\
    MathEval.get_metrics self' =
      Ok [("num_entries", MInt 1);
          ("correct_answer", MFloat 100);
          ("wrong_answer", MFloat (-100));
          ("no_answer", MFloat 100)] /\
    PrimFloat.ltb (-100) 0 = true.
Proof.
  intros Hall Hsome.
  assert (Hupd : forall st, MathEval.update st predictions "best" =
    Ok {| MathEval.total_correct := MathEval.total_correct st + 1;
          MathEval.total_no_answer := MathEval.total_no_answer st + 1;
          MathEval.total := MathEval.total st + 1 |}).
  { intros st. unfold MathEval.update. simpl String.eqb. cbv iota.
    destruct (traverse_is_correct predictions) as (cs & -> & Hcs).
    { eapply Forall_impl; [exact Hall|]. intros elem [_ H]. exact H. }
    destruct (traverse_all_None predictions) as (ans & -> & Hans).
    { eapply Forall_impl; [exact Hall|]. intros elem [H _]. exact H. }
    simpl. rewrite Hans. do 2 f_equal.
    assert (E : existsb truthy cs = true); [|rewrite E; reflexivity].
    clear Hall. induction Hcs as [|elem c predictions cs Hc Hcs IH]; simpl.
    - inversion Hsome.
    - inversion Hsome as [? ? (c' & Hc' & Ht)|? ? Hrest]; subst.
      + rewrite Hc in Hc'. injection Hc' as <-. rewrite Ht. reflexivity.
      + rewrite (IH Hrest). apply orb_true_r. }
  split; [apply Hupd|].
  eexists. split; [apply Hupd|]. split; vm_compute; reflexivity.
Qed.

Lemma best_counts_correct_and_no_answer_witness :
  MathEval.update MathEval.reset [math_record PNone false; math_record PNone true] "best" =
    Ok {| MathEval.total_correct := 0 + 1;
          MathEval.total_no_answer := 0 + 1;
          MathEval.total := 0 + 1 |} /\
  exists self',
    MathEval.update MathEval.reset [math_record PNone false; math_record PNone true] "best" =
      Ok self' /\
    MathEval.get_metrics self' =
      Ok [("num_entries", MInt 1);
          ("correct_answer", MFloat 100);
          ("wrong_answer", MFloat (-100));
          ("no_answer", MFloat 100)] /\
    PrimFloat.ltb (-100) 0 = true.
Proof.
  apply (best_counts_correct_and_no_answer MathEval.reset
           [math_record PNone false; math_record PNone true]).
  - apply List.Forall_cons; [split; [reflexivity|exists (PBool false); reflexivity]|].
    apply List.Forall_cons; [split; [reflexivity|exists (PBool true); reflexivity]|].
    apply List.Forall_nil.
  - apply List.Exists_cons_tl, List.Exists_cons_hd.
    exists (PBool true). split; reflexivity.
Defined.


(** ** IFEval: the merge of the best mode *)

Lemma readable_iff (acc follows : list bool) :
  readable acc follows = true <->
  (forall i, acc !! i = Some false -> (i < length follows)%nat).
Proof.
  revert follows; induction acc as [|x acc IH]; intros follows; simpl.
  - split; [intros _ i Hi; discriminate Hi|reflexivity].
  - destruct follows as [|y follows].
    + rewrite andb_true_iff, IH. split.
      * intros [-> H] [|i] Hi; [discriminate Hi|]. apply H in Hi. simpl in Hi. lia.
      * intros H. split.
        -- destruct x; [reflexivity|]. specialize (H 0%nat eq_refl). simpl in H. lia.
        -- intros i Hi. specialize (H (Datatypes.S i) Hi). simpl in H. lia.
    + rewrite IH. split.
      * intros H [|i] Hi; simpl; [lia|]. apply H in Hi. lia.
      * intros H i Hi. specialize (H (Datatypes.S i) Hi). simpl in H. lia.
Qed.

Lemma readable_longer (acc follows : list bool) :
  (length acc <= length follows)%nat -> readable acc follows = true.
Proof.
  intros H. apply readable_iff. intros i Hi. apply lookup_lt_Some in Hi. lia.
Qed.

Lemma or_lists_length (acc follows : list bool) :
  length (or_lists acc follows) = length acc.
Proof.
  revert follows; induction acc as [|x acc IH]; intros [|y follows]; simpl;
    try rewrite IH; reflexivity.
Qed.

Lemma or_lists_take (acc follows : list bool) :
  or_lists acc (take (length acc) follows) = or_lists acc follows.
Proof.
  revert follows; induction acc as [|x acc IH]; intros [|y follows]; simpl;
    try rewrite IH; reflexivity.
Qed.

Lemma readable_take (acc follows : list bool) :
  readable acc (take (length acc) follows) = readable acc follows.
Proof.
  revert follows; induction acc as [|x acc IH]; intros [|y follows]; simpl;
    try rewrite IH; reflexivity.
Qed.

(** The comprehension of the merge, from position [s] on. *)
Lemma or_with_from (elem : pyval) (acc follows : list bool) :
  has_follow_list elem follows ->
  forall n s, (s + n = length acc)%nat ->
  traverse (fun i =>
              let! x := index (PList (map PBool acc)) i in
              if truthy x then Ok x
              else let! other := getitem elem "follow_instruction_list" in
                   index other i)
           (seq s n) =
  if readable (drop s acc) (drop s follows)
  then Ok (map PBool (or_lists (drop s acc) (drop s follows)))
  else Raise IndexError.
Proof.
  intros Helem. unfold has_follow_list in Helem. rewrite Helem.
  induction n as [|n IH]; intros s Hs.
  - rewrite drop_ge by lia. reflexivity.
  - destruct (lookup_lt_is_Some_2 acc s) as [x Hx]; [lia|].
    change (seq s (Datatypes.S n)) with (s :: seq (Datatypes.S s) n).
    cbn [traverse]. rewrite (IH (Datatypes.S s)) by lia.
    rewrite (drop_S _ _ _ Hx).
    cbn [index]. rewrite list_lookup_fmap, Hx. simpl.
    destruct (follows !! s) as [y|] eqn:Hy.
    + rewrite (drop_S _ _ _ Hy). rewrite list_lookup_fmap, Hy. simpl.
      destruct x; simpl;
        destruct (readable (drop (Datatypes.S s) acc) (drop (Datatypes.S s) follows));
        reflexivity.
    + apply lookup_ge_None in Hy.
      rewrite (drop_ge follows s), (drop_ge follows (Datatypes.S s)) by lia.
      rewrite list_lookup_fmap, (proj2 (lookup_ge_None follows s) Hy). simpl.
      destruct x; simpl; [|reflexivity].
      destruct (readable (drop (Datatypes.S s) acc) []); reflexivity.
Qed.

(** One round of the merge. *)
Lemma or_with_spec (elem : pyval) (acc follows : list bool) :
  has_follow_list elem follows ->
  IFEval.or_with (PList (map PBool acc)) elem =
  if readable acc follows then Ok (PList (map PBool (or_lists acc follows)))
  else Raise IndexError.
Proof.
  intros Helem. unfold IFEval.or_with. cbn [py_len bind].
  rewrite length_map.
  rewrite (or_with_from elem acc follows Helem (length acc) 0%nat eq_refl).
  rewrite !drop_0. destruct (readable acc follows); reflexivity.
Qed.

(** The whole merge. *)
Lemma or_all_spec (elems : list pyval) (lists : list (list bool)) :
  Forall2 has_follow_list elems lists ->
  forall acc,
  IFEval.or_all (PList (map PBool acc)) elems =
  if all_readable acc lists then Ok (PList (map PBool (fold_left or_lists lists acc)))
  else Raise IndexError.
Proof.
  induction 1 as [|elem follows elems lists Helem _ IH]; intros acc; simpl.
  - reflexivity.
  - rewrite (or_with_spec _ _ _ Helem).
    destruct (readable acc follows); simpl; [apply IH|reflexivity].
Qed.

Lemma all_readable_longer (lists : list (list bool)) : forall acc,
  Forall (fun follows => (length acc <= length follows)%nat) lists ->
  all_readable acc lists = true.
Proof.
  induction lists as [|follows lists IH]; intros acc H; simpl; [reflexivity|].
  inversion H as [|? ? H1 H2]; subst.
  rewrite readable_longer by exact H1. simpl. apply IH.
  rewrite or_lists_length. exact H2.
Qed.

Lemma fold_or_lists_length (lists : list (list bool)) : forall acc,
  length (fold_left or_lists lists acc) = length acc.
Proof.
  induction lists as [|follows lists IH]; intros acc; simpl; [reflexivity|].
  rewrite IH. apply or_lists_length.
Qed.

Lemma all_readable_take (lists : list (list bool)) : forall acc,
  all_readable acc (map (take (length acc)) lists) = all_readable acc lists /\
  fold_left or_lists (map (take (length acc)) lists) acc = fold_left or_lists lists acc.
Proof.
  induction lists as [|follows lists IH]; intros acc; simpl; [split; reflexivity|].
  rewrite readable_take, or_lists_take.
  destruct (IH (or_lists acc follows)) as [IH1 IH2].
  rewrite or_lists_length in IH1, IH2. rewrite IH1, IH2. split; reflexivity.
Qed.

Lemma blocks_have_follow_lists (blocks : list (list string * list bool)) :
  Forall2 has_follow_list (blocks_of blocks) (map snd blocks).
Proof.
  induction blocks as [|b blocks IH]; simpl; constructor; [reflexivity|exact IH].
Qed.

(** The merged list is the element-wise [or], over the positions of the
    accumulated list. *)
Lemma merged_lookup (lists : list (list bool)) : forall acc i,
  fold_left or_lists lists acc !! i =
  (fun x => x || existsb (fun follows => nth i follows false) lists) <$> acc !! i.
Proof.
  assert (Hone : forall acc follows i,
            or_lists acc follows !! i = (fun x => x || nth i follows false) <$> acc !! i).
  { induction acc as [|x acc IH]; intros [|y follows] [|i]; simpl; try reflexivity.
    - rewrite orb_false_r. reflexivity.
    - rewrite IH. destruct i; reflexivity.
    - apply IH. }
  induction lists as [|follows lists IH]; intros acc i; simpl.
  - destruct (acc !! i); simpl; [rewrite orb_false_r|]; reflexivity.
  - rewrite IH, Hone. destruct (acc !! i); simpl; [rewrite orb_assoc|]; reflexivity.
Qed.

Lemma sum_from_bools (l : list bool) : forall acc,
  exists n, IFEval.sum_from acc (map PBool l) = Ok n.
Proof.
  induction l as [|x l IH]; intros acc; simpl; [eauto|]. apply IH.
Qed.

Lemma tier0_loop_blocks (ids : list string) : forall (l : list bool) stats_dict,
  exists stats', IFEval.tier0_loop stats_dict (combine (map PStr ids) (map PBool l)) = Ok stats'.
Proof.
  induction ids as [|id ids IH]; intros [|x l] stats_dict; simpl; eauto.
Qed.

(** With blocks of strings and booleans, [_update_single_stat] raises nothing
    but what the merge raises. *)
Lemma update_single_stat_blocks stats_dict ids0 f0 (rest : list (list string * list bool)) :
  let lists := f0 :: map snd rest in
  if all_readable f0 lists
  then exists stats',
         IFEval._update_single_stat stats_dict (eval_block ids0 f0 :: blocks_of rest) =
           Ok stats'
  else IFEval._update_single_stat stats_dict (eval_block ids0 f0 :: blocks_of rest) =
         Raise IndexError.
Proof.
  intros lists. unfold IFEval._update_single_stat.
  change (getitem (eval_block ids0 f0) "instruction_id_list")
    with (Ok (PList (map PStr ids0))).
  change (getitem (eval_block ids0 f0) "follow_instruction_list")
    with (Ok (PList (map PBool f0))).
  cbn [bind].
  rewrite (or_all_spec (eval_block ids0 f0 :: blocks_of rest) lists
             (blocks_have_follow_lists ((ids0, f0) :: rest)) f0).
  destruct (all_readable f0 lists); [|reflexivity].
  cbn [bind py_iter py_len].
  destruct (sum_from_bools (fold_left or_lists lists f0) 0) as [n ->].
  cbn [bind]. apply tier0_loop_blocks.
Qed.

(** C10, as the code has it: the merge of the best mode is well defined, with
    no index out of range, if every record's [follow_instruction_list] is at
    least as long as the first record's; the merged list has the length of
    the first record's list, and the elements of a longer list beyond that
    length are ignored.  (The condition is sufficient, not necessary: the
    right operand of [or] is read only where the accumulated value is false;
    see [best_merge_defined_iff].) *)
Theorem best_merge_defined_when_lists_long_enough (stats_dict : IFEval.stats)
        (ids0 : list string) (f0 : list bool) (rest : list (list string * list bool)) :
  Forall (fun b => (length f0 <= length (snd b))%nat) rest ->
  let elems := eval_block ids0 f0 :: blocks_of rest in
  let cut := map (fun b => (fst b, take (length f0) (snd b))) rest in
  let merged := fold_left or_lists (f0 :: map snd rest) f0 in
  IFEval.or_all (PList (map PBool f0)) elems = Ok (PList (map PBool merged)) /\
  length merged = length f0 /\
  (exists stats', IFEval._update_single_stat stats_dict elems = Ok stats') /\
  IFEval.or_all (PList (map PBool f0)) (eval_block ids0 f0 :: blocks_of cut) =
    IFEval.or_all (PList (map PBool f0)) elems.
Proof.
  intros Hlen elems cut merged.
  assert (Hr : all_readable f0 (f0 :: map snd rest) = true).
  { apply all_readable_longer. constructor; [lia|].
    apply Forall_forall. intros f Hf. apply list_elem_of_In, in_map_iff in Hf.
    destruct Hf as (b & <- & Hb). rewrite Forall_forall in Hlen.
    apply Hlen, list_elem_of_In, Hb. }
  assert (Hspec := or_all_spec elems (f0 :: map snd rest)
                     (blocks_have_follow_lists ((ids0, f0) :: rest)) f0).
  rewrite Hr in Hspec.
  split; [exact Hspec|]. split; [apply fold_or_lists_length|]. split.
  - pose proof (update_single_stat_blocks stats_dict ids0 f0 rest) as H.
    cbv zeta in H. rewrite Hr in H. exact H.
  - rewrite Hspec.
    rewrite (or_all_spec (eval_block ids0 f0 :: blocks_of cut) (f0 :: map snd cut)
               (blocks_have_follow_lists ((ids0, f0) :: cut)) f0).
    assert (Hcut : f0 :: map snd cut = map (take (length f0)) (f0 :: map snd rest)).
    { simpl. rewrite firstn_all. f_equal. unfold cut. rewrite !map_map. reflexivity. }
    rewrite Hcut. destruct (all_readable_take (f0 :: map snd rest) f0) as [-> ->].
    rewrite Hr. reflexivity.
Qed.

Lemma best_merge_defined_when_lists_long_enough_witness :
  let elems := eval_block ["a"; "b"] [true; false]
               :: blocks_of [(["a"; "b"], [false; false; true])] in
  let cut := map (fun b => (fst b, take (length [true; false]) (snd b)))
                 [(["a"; "b"], [false; false; true])] in
  let merged := fold_left or_lists
                          ([true; false] :: map snd [(["a"; "b"], [false; false; true])])
                          [true; false] in
  IFEval.or_all (PList (map PBool [true; false])) elems = Ok (PList (map PBool merged)) /\
  length merged = length [true; false] /\
  (exists stats', IFEval._update_single_stat IFEval.empty_stats elems = Ok stats') /\
  IFEval.or_all (PList (map PBool [true; false]))
                (eval_block ["a"; "b"] [true; false] :: blocks_of cut) =
    IFEval.or_all (PList (map PBool [true; false])) elems.
Proof.
  apply (best_merge_defined_when_lists_long_enough IFEval.empty_stats
           ["a"; "b"] [true; false] [(["a"; "b"], [false; false; true])]).
  constructor; [simpl; lia|constructor].
Defined.

(** The exact condition under which the merge is defined: every record has
    an element at each position where the [or] of the records before it is
    false. *)
Lemma best_merge_defined_iff (stats_dict : IFEval.stats)
      (ids0 : list string) (f0 : list bool) (rest : list (list string * list bool)) :
  (exists stats',
     IFEval._update_single_stat stats_dict (eval_block ids0 f0 :: blocks_of rest) = Ok stats')
  <-> all_readable f0 (f0 :: map snd rest) = true.
Proof.
  pose proof (update_single_stat_blocks stats_dict ids0 f0 rest) as H. cbv zeta in H.
  destruct (all_readable f0 (f0 :: map snd rest)).
  - split; [reflexivity|intros _; exact H].
  - rewrite H. split; [intros [? E]; discriminate E|discriminate].
Qed.

(** C10 fails as stated: the merge is defined for a record whose list is
    shorter than the first record's, when the first record's list is true
    where the shorter one ends.  Here the second record is the placeholder of
    [IFEval], whose lists are empty. *)
Lemma shorter_list_merged_without_error :
  let first := eval_block ["punctuation:no_comma"] [true] in
  let second := eval_block [] [] in
  has_follow_list first [true] /\ has_follow_list second [] /\
  (length ([] : list bool) < length [true])%nat /\
  (exists stats', IFEval._update_single_stat IFEval.empty_stats [first; second] = Ok stats') /\
  (exists self, IFEval.update IFEval.reset [followed; IFEval.fill_up_missing] "best" = Ok self).
Proof.
  cbv zeta. split; [reflexivity|]. split; [reflexivity|]. split; [simpl; lia|].
  split; eexists; vm_compute; reflexivity.
Qed.

(** ** MathEval: the majority mode *)

Lemma py_eq_sym (a b : pyval) : py_eq a b = py_eq b a.
Proof.
  destruct a, b; simpl; try reflexivity.
  - destruct b, b0; reflexivity.
  - apply Z.eqb_sym.
  - apply String.eqb_sym.
Qed.

Lemma py_eq_refl (a : pyval) : hashable a = true -> py_eq a a = true.
Proof.
  destruct a; simpl; intros H; try discriminate H; try reflexivity.
  - destruct b; reflexivity.
  - apply Z.eqb_refl.
  - apply String.eqb_refl.
Qed.

Lemma py_eq_trans (a b c : pyval) :
  py_eq a b = true -> py_eq b c = true -> py_eq a c = true.
Proof.
  destruct a, b, c; simpl; try discriminate; try reflexivity;
    rewrite ?Z.eqb_eq, ?String.eqb_eq, ?Bool.eqb_true_iff;
    intros; subst; try reflexivity;
    repeat match goal with x : bool |- _ => destruct x end;
    simpl in *; congruence.
Qed.

Lemma pair_eq_sym (p q : pyval * pyval) : pair_eq p q = pair_eq q p.
Proof. unfold pair_eq. rewrite (py_eq_sym (fst p)), (py_eq_sym (snd p)). reflexivity. Qed.

Lemma pair_eq_refl (p : pyval * pyval) : hashable_pair p = true -> pair_eq p p = true.
Proof.
  unfold hashable_pair, pair_eq. rewrite !andb_true_iff.
  intros [H1 H2]. split; apply py_eq_refl; assumption.
Qed.

Lemma pair_eq_trans (p q r : pyval * pyval) :
  pair_eq p q = true -> pair_eq q r = true -> pair_eq p r = true.
Proof.
  unfold pair_eq. rewrite !andb_true_iff. intros [H1 H2] [H3 H4].
  split; eapply py_eq_trans; eassumption.
Qed.

(** Equal keys occur equally often. *)
Lemma occurrences_eq (p q : pyval * pyval) (l : list (pyval * pyval)) :
  pair_eq p q = true -> occurrences p l = occurrences q l.
Proof.
  intros H. induction l as [|x l IH]; simpl; [reflexivity|]. rewrite IH. f_equal.
  destruct (pair_eq p x) eqn:E1, (pair_eq q x) eqn:E2; try reflexivity.
  - rewrite pair_eq_sym in H. rewrite (pair_eq_trans _ _ _ H E1) in E2. discriminate.
  - rewrite (pair_eq_trans _ _ _ H E2) in E1. discriminate.
Qed.

(** Leaving out the elements equal to [p] does not change the count of a key
    different from [p]. *)
Lemma occurrences_filter (p q : pyval * pyval) (l : list (pyval * pyval)) :
  pair_eq p q = false ->
  occurrences q (List.filter (fun x => negb (pair_eq p x)) l) = occurrences q l.
Proof.
  intros H. induction l as [|x l IH]; simpl; [reflexivity|].
  destruct (pair_eq p x) eqn:E; simpl; rewrite IH; [|reflexivity].
  destruct (pair_eq q x) eqn:E2; [|reflexivity].
  rewrite (pair_eq_sym q x) in E2. rewrite (pair_eq_trans _ _ _ E E2) in H. discriminate.
Qed.

Lemma Counter_from_tally (l : list (pyval * pyval)) : forall c,
  Forall (fun p => hashable_pair p = true) l -> Counter_from c l = Ok (tally c l).
Proof.
  induction l as [|p l IH]; intros c H; simpl; [reflexivity|].
  inversion H as [|? ? Hp Hl]; subst. unfold hashable_pair in Hp. rewrite Hp.
  apply IH, Hl.
Qed.

(** The first key collects the elements equal to it; the other elements are
    counted by the keys after it. *)
Lemma tally_cons (l : list (pyval * pyval)) : forall q n c,
  tally ((q, n) :: c) l =
  (q, (n + occurrences q l)%nat) :: tally c (List.filter (fun x => negb (pair_eq q x)) l).
Proof.
  induction l as [|x l IH]; intros q n c; simpl.
  - rewrite Nat.add_0_r. reflexivity.
  - destruct (pair_eq q x) eqn:E; simpl.
    + rewrite IH. do 2 f_equal. lia.
    + rewrite IH. reflexivity.
Qed.

Lemma filter_split {A} (f : A -> bool) (l : list A) : forall b' q a',
  List.filter f l = b' ++ q :: a' ->
  exists b a, l = b ++ q :: a /\ List.filter f b = b' /\ List.filter f a = a'.
Proof.
  induction l as [|x l IH]; intros b' q a' H; simpl in H.
  - destruct b'; discriminate H.
  - destruct (f x) eqn:E.
    + destruct b' as [|y b'].
      * injection H as Hx Ha. exists [], l. rewrite <- Hx. simpl. auto.
      * injection H as Hx H. destruct (IH _ _ _ H) as (b & a & -> & <- & <-).
        exists (x :: b), a. rewrite <- Hx. simpl. rewrite E. auto.
    + destruct (IH _ _ _ H) as (b & a & -> & <- & <-).
      exists (x :: b), a. simpl. rewrite E. auto.
Qed.

(** What the counts of a list are: every key has the count of its
    occurrences, stands at the place of its first occurrence, after the keys
    of the elements before it, and every element has a key. *)
Lemma tally_facts (n : nat) : forall valid,
  (length valid <= n)%nat ->
  Forall (fun p => hashable_pair p = true) valid ->
  (forall c1 q k c2,
     tally [] valid = c1 ++ (q, k) :: c2 ->
     k = occurrences q valid /\
     exists before after,
       valid = before ++ q :: after /\
       Forall (fun r => Exists (fun e => pair_eq (fst e) r = true) c1) before) /\
  (forall r, In r valid -> Exists (fun e => pair_eq (fst e) r = true) (tally [] valid)).
Proof.
  induction n as [|n IH]; intros [|p l] Hn Hh; simpl in Hn; try lia.
  - split; [intros [|? ?] ? ? ? H; discriminate H|intros r []].
  - split; [intros [|? ?] ? ? ? H; discriminate H|intros r []].
  - inversion Hh as [|? ? Hp Hl]; subst.
    set (l' := List.filter (fun x => negb (pair_eq p x)) l).
    assert (Ht : tally [] (p :: l) = (p, (1 + occurrences p l)%nat) :: tally [] l').
    { change (tally [] (p :: l)) with (tally [(p, 1%nat)] l). apply tally_cons. }
    destruct (IH l') as [IHA IHB].
    { pose proof (List.filter_length_le (fun x => negb (pair_eq p x)) l). unfold l'. lia. }
    { apply List.Forall_forall. intros x Hx. apply List.filter_In in Hx.
      rewrite List.Forall_forall in Hl. apply Hl, Hx. }
    rewrite Ht. split.
    + intros c1 q k c2 H. destruct c1 as [|e c1].
      * simpl in H. injection H as <- <- _. split.
        -- simpl. rewrite (pair_eq_refl _ Hp). reflexivity.
        -- exists [], l. split; [reflexivity|constructor].
      * simpl in H. injection H as <- H.
        destruct (IHA _ _ _ _ H) as (Hk & b' & a' & Hl' & Hb').
        assert (Hq : pair_eq p q = false).
        { assert (Hin : In q l') by (rewrite Hl'; apply in_elt).
          apply List.filter_In in Hin. destruct Hin as [_ Hin].
          apply negb_true_iff in Hin. exact Hin. }
        split.
        -- simpl. rewrite (pair_eq_sym q p), Hq. simpl. rewrite Hk.
           apply occurrences_filter, Hq.
        -- destruct (filter_split _ _ _ _ _ Hl') as (b & a & -> & Hfb & _).
           exists (p :: b), a. split; [reflexivity|].
           constructor.
           ++ apply List.Exists_cons_hd. simpl. apply pair_eq_refl, Hp.
           ++ apply List.Forall_forall. intros r Hr.
              destruct (pair_eq p r) eqn:E.
              ** apply List.Exists_cons_hd. exact E.
              ** apply List.Exists_cons_tl.
                 rewrite List.Forall_forall in Hb'. apply Hb'. rewrite <- Hfb.
                 apply List.filter_In. split; [exact Hr|]. rewrite E. reflexivity.
    + intros r [<- | Hr].
      * apply List.Exists_cons_hd. simpl. apply pair_eq_refl, Hp.
      * destruct (pair_eq p r) eqn:E.
        -- apply List.Exists_cons_hd. exact E.
        -- apply List.Exists_cons_tl. apply IHB. apply List.filter_In.
           split; [exact Hr|]. rewrite E. reflexivity.
Qed.

(** [first_max] returns the first element of the highest count. *)
Lemma first_max_spec (c : list ((pyval * pyval) * nat)) : forall best,
  exists c1 c2,
    best :: c = c1 ++ first_max best c :: c2 /\
    Forall (fun x => (snd x < snd (first_max best c))%nat) c1 /\
    Forall (fun x => (snd x <= snd (first_max best c))%nat) c2.
Proof.
  induction c as [|x c IH]; intros best; simpl.
  - exists [], []. repeat split; constructor.
  - destruct (Nat.ltb_spec (snd best) (snd x)) as [Hlt|Hge].
    + destruct (IH x) as (c1 & c2 & Hsplit & H1 & H2).
      remember (first_max x c) as m eqn:Hm. clear Hm.
      assert (Hx : (snd x <= snd m)%nat).
      { destruct c1 as [|y c1]; simpl in Hsplit; injection Hsplit as Hy _.
        - rewrite Hy. lia.
        - inversion H1; subst. lia. }
      exists (best :: c1), c2. split; [simpl; rewrite Hsplit; reflexivity|].
      split; [constructor; [lia|exact H1]|exact H2].
    + destruct (IH best) as (c1 & c2 & Hsplit & H1 & H2).
      remember (first_max best c) as m eqn:Hm. clear Hm.
      destruct c1 as [|y c1]; simpl in Hsplit; injection Hsplit as Hy Hc.
      * exists [], (x :: c2). split; [simpl; rewrite <- Hy, Hc; reflexivity|].
        split; [constructor|]. constructor; [rewrite <- Hy; lia|exact H2].
      * exists (best :: x :: c1), c2. subst y.
        split; [simpl; rewrite Hc; reflexivity|].
        inversion H1; subst.
        split; [constructor; [assumption|constructor; [lia|assumption]]|exact H2].
Qed.

Lemma valid_answers_spec (predictions : list pyval) (records : list (pyval * pyval)) :
  Forall2 (fun elem r => getitem elem "predicted_answer" = Ok (fst r) /\
                         getitem elem "is_correct" = Ok (snd r)) predictions records ->
  MathEval.valid_answers_and_results predictions =
    Ok (List.filter (fun r => negb (is_None (fst r))) records).
Proof.
  induction 1 as [|elem r predictions records [Ha Hc] _ IH]; simpl; [reflexivity|].
  rewrite Ha. cbn [bind]. destruct (is_None (fst r)); simpl; [exact IH|].
  rewrite Hc, IH. simpl. destruct r; reflexivity.
Qed.

(** C4: the majority mode of [MathEval].  Let [valid] be the pairs
    [(predicted_answer, is_correct)] of the records of the group whose answer
    is not [None], in the order of the group.  If there is none, the group
    counts as no answer.  Otherwise a pair [winner] of [valid] is selected
    such that no pair occurs more often in [valid], and every pair before it
    occurs less often: the first of the most frequent pairs.  Its
    [is_correct] is what is added to the count of correct groups. *)
Theorem majority_picks_first_most_frequent (self : MathEval.state)
        (predictions : list pyval) (records : list (pyval * pyval)) :
  Forall2 (fun elem r => getitem elem "predicted_answer" = Ok (fst r) /\
                         getitem elem "is_correct" = Ok (snd r)) predictions records ->
  Forall (fun r => hashable (fst r) = true /\ exists b, snd r = PBool b) records ->
  let valid := List.filter (fun r => negb (is_None (fst r))) records in
  (valid = [] /\
   MathEval.update self predictions "majority" =
     Ok {| MathEval.total_correct := MathEval.total_correct self;
           MathEval.total_no_answer := MathEval.total_no_answer self + 1;
           MathEval.total := MathEval.total self + 1 |}) \/
  (exists before winner after b,
     valid = before ++ winner :: after /\
     snd winner = PBool b /\
     Forall (fun r => (occurrences r valid < occurrences winner valid)%nat) before /\
     Forall (fun r => (occurrences r valid <= occurrences winner valid)%nat) after /\
     MathEval.update self predictions "majority" =
       Ok {| MathEval.total_correct := MathEval.total_correct self + Z.b2z b;
             MathEval.total_no_answer := MathEval.total_no_answer self;
             MathEval.total := MathEval.total self + 1 |}).
Proof.
  intros Hrec Hwf valid.
  assert (Hvalid := valid_answers_spec _ _ Hrec). fold valid in Hvalid.
  assert (Hsub : forall r, In r valid -> hashable (fst r) = true /\ exists b, snd r = PBool b).
  { intros r Hr. apply List.filter_In in Hr. rewrite List.Forall_forall in Hwf.
    apply Hwf, Hr. }
  assert (Hh : Forall (fun p => hashable_pair p = true) valid).
  { apply List.Forall_forall. intros r Hr. destruct (Hsub r Hr) as [H1 [b H2]].
    unfold hashable_pair. rewrite H1, H2. reflexivity. }
  unfold MathEval.update. simpl String.eqb. cbv iota. rewrite Hvalid. cbn [bind].
  destruct valid as [|p l] eqn:Ev; [left; split; reflexivity|right].
  rewrite <- Ev in *.
  unfold Counter. rewrite (Counter_from_tally valid [] Hh). cbn [bind].
  destruct (tally_facts (length valid) valid (le_n _) Hh) as [HA HB].
  assert (Hcount : forall e, In e (tally [] valid) -> snd e = occurrences (fst e) valid).
  { intros [q k] He. apply in_split in He. destruct He as (c1 & c2 & He).
    apply (HA _ _ _ _ He). }
  assert (Ht : exists x rest, tally [] valid = x :: rest).
  { rewrite Ev. change (tally [] (p :: l)) with (tally [(p, 1%nat)] l).
    rewrite tally_cons. eauto. }
  destruct Ht as (x & rest & Ht). rewrite Ht. cbn [most_common_1].
  destruct (first_max_spec rest x) as (c1 & c2 & Hsplit & H1 & H2).
  destruct (first_max x rest) as [winner cnt] eqn:Em. simpl snd in H1, H2.
  rewrite <- Ht in Hsplit.
  destruct (HA _ _ _ _ Hsplit) as (Hcnt & before & after & Hba & Hbefore).
  assert (Hw : In winner valid) by (rewrite Hba; apply in_elt).
  destruct (Hsub winner Hw) as [_ [b Hb]].
  exists before, winner, after, b.
  split; [exact Hba|]. split; [exact Hb|]. split; [|split].
  - apply List.Forall_forall. intros r Hr.
    rewrite List.Forall_forall in Hbefore. specialize (Hbefore r Hr).
    apply List.Exists_exists in Hbefore. destruct Hbefore as (e & He & Heq).
    rewrite <- (occurrences_eq _ _ valid Heq), <- Hcnt.
    rewrite <- (Hcount e) by (rewrite Hsplit; apply in_or_app; left; exact He).
    rewrite List.Forall_forall in H1. apply H1, He.
  - apply List.Forall_forall. intros r Hr.
    assert (Hrv : In r valid) by (rewrite Hba; apply in_or_app; right; right; exact Hr).
    specialize (HB r Hrv). apply List.Exists_exists in HB. destruct HB as (e & He & Heq).
    rewrite <- (occurrences_eq _ _ valid Heq), <- Hcnt, <- (Hcount e He).
    rewrite Hsplit in He. apply in_app_or in He. destruct He as [He|[<-|He]].
    + rewrite List.Forall_forall in H1. specialize (H1 e He). lia.
    + simpl. lia.
    + rewrite List.Forall_forall in H2. apply H2, He.
  - simpl snd. rewrite Hb. reflexivity.
Qed.

Lemma majority_picks_first_most_frequent_witness :
  let records := [(PStr "3", PBool true); (PNone, PBool false); (PStr "2", PBool false);
                  (PStr "2", PBool false); (PStr "3", PBool true)] in
  let predictions := [math_record (PStr "3") true; math_record PNone false;
                      math_record (PStr "2") false; math_record (PStr "2") false;
                      math_record (PStr "3") true] in
  let valid := List.filter (fun r => negb (is_None (fst r))) records in
  (valid = [] /\
   MathEval.update MathEval.reset predictions "majority" =
     Ok {| MathEval.total_correct := MathEval.total_correct MathEval.reset;
           MathEval.total_no_answer := MathEval.total_no_answer MathEval.reset + 1;
           MathEval.total := MathEval.total MathEval.reset + 1 |}) \/
  (exists before winner after b,
     valid = before ++ winner :: after /\
     snd winner = PBool b /\
     Forall (fun r => (occurrences r valid < occurrences winner valid)%nat) before /\
     Forall (fun r => (occurrences r valid <= occurrences winner valid)%nat) after /\
     MathEval.update MathEval.reset predictions "majority" =
       Ok {| MathEval.total_correct := MathEval.total_correct MathEval.reset + Z.b2z b;
             MathEval.total_no_answer := MathEval.total_no_answer MathEval.reset;
             MathEval.total := MathEval.total MathEval.reset + 1 |}).
Proof.
  apply (majority_picks_first_most_frequent MathEval.reset
           [math_record (PStr "3") true; math_record PNone false;
            math_record (PStr "2") false; math_record (PStr "2") false;
            math_record (PStr "3") true]
           [(PStr "3", PBool true); (PNone, PBool false); (PStr "2", PBool false);
            (PStr "2", PBool false); (PStr "3", PBool true)]).
  - repeat (apply List.Forall2_cons; [split; reflexivity|]). apply List.Forall2_nil.
  - repeat (apply List.Forall_cons; [split; [reflexivity|eexists; reflexivity]|]).
    apply List.Forall_nil.
Defined.

(** The examples of the specification: a tie is won by the pair seen first,
    and two wrong answers beat one right answer. *)
Example majority_tie_first_seen :
  MathEval.update MathEval.reset
    [math_record (PStr "3") true; math_record (PStr "2") false;
     math_record (PStr "2") false; math_record (PStr "3") true] "majority" =
    Ok {| MathEval.total_correct := 1; MathEval.total_no_answer := 0; MathEval.total := 1 |} /\
  MathEval.update MathEval.reset
    [math_record (PStr "2") false; math_record (PStr "3") true;
     math_record (PStr "3") true; math_record (PStr "2") false] "majority" =
    Ok {| MathEval.total_correct := 0; MathEval.total_no_answer := 0; MathEval.total := 1 |} /\
  MathEval.update MathEval.reset
    [math_record (PStr "2") false; math_record (PStr "2") false;
     math_record (PStr "3") true] "majority" =
    Ok {| MathEval.total_correct := 0; MathEval.total_no_answer := 0; MathEval.total := 1 |}.
Proof. repeat split. Qed.

(** * Further properties of the driver *)

Lemma zip_longest_rounds_lookup {A} (n : nat) : forall (its : list (list A)) (i : nat),
  (longest its <= n)%nat -> (i < longest its)%nat ->
  zip_longest_rounds n its !! i = Some (map (fun it => it !! i) its).
Proof.
  induction n as [|n IH]; intros its i Hn Hi; [lia|].
  simpl. destruct (forallb exhausted its) eqn:E.
  - apply longest_exhausted in E. lia.
  - destruct i as [|i]; simpl.
    + f_equal. apply map_ext. intros it. apply head_lookup.
    + rewrite IH; rewrite ?longest_tail; try lia.
      f_equal. rewrite map_map. apply map_ext. intros it. apply lookup_tail.
Qed.

(** The tuple of index [i] holds the line of index [i] of every stream, and
    [None] for a stream that has ended. *)
Lemma zip_longest_lookup {A} (its : list (list A)) (i : nat) :
  (i < longest its)%nat ->
  zip_longest its !! i = Some (map (fun it => it !! i) its).
Proof. apply zip_longest_rounds_lookup. lia. Qed.

Lemma longest_take {A} (k : nat) (its : list (list A)) :
  longest (map (take k) its) = Nat.min k (longest its).
Proof.
  induction its as [|it its IH]; unfold longest in *; simpl; [lia|].
  rewrite IH, length_take. lia.
Qed.

(** Cutting every stream after [k] lines cuts the tuples after [k]. *)
Lemma zip_longest_take {A} (k : nat) (its : list (list A)) :
  zip_longest (map (take k) its) = take k (zip_longest its).
Proof.
  apply list_eq. intros i.
  destruct (Nat.lt_ge_cases i (Nat.min k (longest its))) as [Hi|Hi].
  - rewrite zip_longest_lookup by (rewrite longest_take; exact Hi).
    rewrite lookup_take_lt by lia. rewrite zip_longest_lookup by lia.
    f_equal. rewrite map_map. apply map_ext. intros it.
    apply lookup_take_lt. lia.
  - rewrite (proj2 (lookup_ge_None _ _)), (proj2 (lookup_ge_None _ _)); [reflexivity| |].
    + rewrite length_take, zip_longest_length. exact Hi.
    + rewrite zip_longest_length, longest_take. exact Hi.
Qed.

Section DriverMore.

Context {S : Type} (evaluator : Evaluator S).

(** X1: the sample group of index [i] holds, in stream order, one entry per
    stream, the line of index [i] of that stream or nothing when the stream
    is shorter; the group handed to [update] has one record per stream. *)
Theorem groups_are_aligned (files : list (list line)) (allow_incomplete : bool)
        (i : nat) (lines : list (option line)) (data : list pyval) :
  zip_longest files !! i = Some lines ->
  collect evaluator allow_incomplete lines = Ok data ->
  lines = map (fun file => file !! i) files /\ length data = length files.
Proof.
  intros Hi Hd.
  assert (Hlt : (i < longest files)%nat).
  { apply lookup_lt_Some in Hi. rewrite zip_longest_length in Hi. exact Hi. }
  rewrite (zip_longest_lookup _ _ Hlt) in Hi. injection Hi as <-.
  split; [reflexivity|]. clear Hlt.
  revert data Hd. unfold collect.
  induction files as [|file files IH]; simpl; intros data Hd.
  - injection Hd as <-. reflexivity.
  - binds. injection Hd as <-. simpl. f_equal. apply (IH a0 E0).
Qed.

Lemma record_of_without_allowance (line : option line) (r : result pyval) :
  record_of evaluator false line = r -> r <> Raise missing_data ->
  record_of evaluator true line = r.
Proof.
  intros <- Hr. destruct line as [[|v]|]; simpl in *; try reflexivity.
  - destruct (truthy v); simpl in *; [|contradiction].
    destruct (is_incomplete v) as [[|]|e]; simpl in *;
      [contradiction|reflexivity|reflexivity].
  - contradiction.
Qed.

Lemma collect_without_allowance (lines : list (option line)) (r : result (list pyval)) :
  collect evaluator false lines = r -> r <> Raise missing_data ->
  collect evaluator true lines = r.
Proof.
  unfold collect. revert r. induction lines as [|line lines IH]; intros r <- Hr; simpl in *.
  - reflexivity.
  - destruct (record_of evaluator false line) as [v|e] eqn:E; simpl in *.
    + rewrite (record_of_without_allowance line (Ok v) E) by discriminate. simpl.
      destruct (traverse (record_of evaluator false) lines) as [vs|e] eqn:E2; simpl in *.
      * rewrite (IH (Ok vs) eq_refl) by discriminate. reflexivity.
      * rewrite (IH (Raise e) eq_refl) by exact Hr. reflexivity.
    + rewrite (record_of_without_allowance line (Raise e) E) by congruence. reflexivity.
Qed.

Lemma loop_without_allowance k mode tuples : forall idx self calls,
  left_with (loop evaluator false k mode idx tuples self calls) <> Raise missing_data ->
  loop evaluator true k mode idx tuples self calls =
  loop evaluator false k mode idx tuples self calls.
Proof.
  induction tuples as [|lines tuples IH]; intros idx self calls H; simpl in *.
  - reflexivity.
  - destruct (idx =? k); [reflexivity|].
    destruct (collect evaluator false lines) as [data|e] eqn:E; simpl in *.
    + rewrite (collect_without_allowance lines (Ok data) E) by discriminate.
      destruct (update self data mode); [apply IH; exact H|reflexivity].
    + rewrite (collect_without_allowance lines (Raise e) E) by congruence. reflexivity.
Qed.

(** X2: [allow_incomplete] matters only when data is missing: a run that,
    not allowing incomplete data, does not end with the missing-data error
    does the same when incomplete data is allowed. *)
Theorem allow_incomplete_only_matters_when_data_is_missing
        (files : list (list line)) (max_samples : Z) (aggregation_mode : string) :
  returned (compute_metrics evaluator files false max_samples aggregation_mode)
    <> Raise missing_data ->
  compute_metrics evaluator files true max_samples aggregation_mode =
  compute_metrics evaluator files false max_samples aggregation_mode.
Proof.
  unfold compute_metrics. intros H.
  rewrite loop_without_allowance; [reflexivity|].
  intros E. rewrite E in H. simpl in H. contradiction.
Qed.

(** Two values of [max_samples] that the indices of the tuples never reach
    give the same loop. *)
Lemma loop_no_cutoff allow k k' mode tuples : forall idx self calls,
  (k < idx \/ idx + Z.of_nat (length tuples) <= k) ->
  (k' < idx \/ idx + Z.of_nat (length tuples) <= k') ->
  loop evaluator allow k mode idx tuples self calls =
  loop evaluator allow k' mode idx tuples self calls.
Proof.
  induction tuples as [|lines tuples IH]; intros idx self calls Hk Hk'; simpl in *.
  - reflexivity.
  - replace (idx =? k) with false by (symmetry; apply Z.eqb_neq; lia).
    replace (idx =? k') with false by (symmetry; apply Z.eqb_neq; lia).
    destruct (collect evaluator allow lines); [|reflexivity].
    destruct (update self a mode); [|reflexivity].
    apply IH; lia.
Qed.

(** X3: a [max_samples] that is at least the length of the longest stream
    changes nothing: the run is the run without cutoff. *)
Theorem max_samples_beyond_the_end_is_no_cutoff
        (files : list (list line)) (allow_incomplete : bool) (max_samples unbounded : Z)
        (aggregation_mode : string) :
  Z.of_nat (longest files) <= max_samples -> unbounded < 0 ->
  compute_metrics evaluator files allow_incomplete max_samples aggregation_mode =
  compute_metrics evaluator files allow_incomplete unbounded aggregation_mode.
Proof.
  intros Hk Hu. unfold compute_metrics. rewrite content_open.
  rewrite (loop_no_cutoff allow_incomplete max_samples unbounded);
    [reflexivity| |]; rewrite zip_longest_length; lia.
Qed.

(** A loop with a cutoff is the loop without cutoff over the tuples before
    the cutoff. *)
Lemma loop_cutoff_take allow k k' mode tuples : forall idx self calls,
  idx <= k -> k' < idx ->
  loop evaluator allow k mode idx tuples self calls =
  loop evaluator allow k' mode idx (take (Z.to_nat (k - idx)) tuples) self calls.
Proof.
  induction tuples as [|lines tuples IH]; intros idx self calls Hk Hk'.
  - rewrite take_nil. reflexivity.
  - simpl loop at 1. destruct (idx =? k) eqn:E.
    + apply Z.eqb_eq in E. subst. rewrite Z.sub_diag. reflexivity.
    + apply Z.eqb_neq in E.
      replace (Z.to_nat (k - idx)) with (Datatypes.S (Z.to_nat (k - (idx + 1)))) by lia.
      simpl. replace (idx =? k') with false by (symmetry; apply Z.eqb_neq; lia).
      destruct (collect evaluator allow lines); [|reflexivity].
      destruct (update self a mode); [|reflexivity].
      apply IH; lia.
Qed.

(** X4: with [max_samples = k], [k] not negative, the run returns what the
    run without cutoff returns on the first [k] lines of every stream, after
    as many calls of [update]. *)
Theorem max_samples_is_truncation
        (files : list (list line)) (allow_incomplete : bool) (k unbounded : Z)
        (aggregation_mode : string) :
  0 <= k -> unbounded < 0 ->
  let r := compute_metrics evaluator files allow_incomplete k aggregation_mode in
  let r' := compute_metrics evaluator (map (take (Z.to_nat k)) files)
                            allow_incomplete unbounded aggregation_mode in
  returned r = returned r' /\ updates r = updates r'.
Proof.
  intros Hk Hu. unfold compute_metrics. rewrite !content_open.
  rewrite zip_longest_take.
  rewrite (loop_cutoff_take allow_incomplete k unbounded) by lia.
  rewrite Z.sub_0_r.
  destruct (left_with _); split; reflexivity.
Qed.

(** X5: whatever happens, [update] is called at most once per index of the
    longest stream, and at most [max_samples] times when [max_samples] is
    not negative. *)
Theorem updates_are_bounded
        (files : list (list line)) (allow_incomplete : bool) (max_samples : Z)
        (aggregation_mode : string) :
  let r := compute_metrics evaluator files allow_incomplete max_samples aggregation_mode in
  (updates r <= longest files)%nat /\
  (max_samples < 0 \/ (updates r <= Z.to_nat max_samples)%nat).
Proof.
  unfold compute_metrics. rewrite content_open.
  pose proof (loop_calls_le evaluator allow_incomplete max_samples aggregation_mode
                (zip_longest files) 0 reset 0%nat) as H.
  rewrite zip_longest_length in H. unfold before_cutoff in H.
  assert (Hu : forall e : loop_end S,
            updates (match left_with e with
                     | Ok self => {| file_handles := map close (map open files);
                                     updates := update_calls e;
                                     returned := get_metrics self |}
                     | Raise exc => {| file_handles := map open files;
                                       updates := update_calls e;
                                       returned := Raise exc |}
                     end) = update_calls e).
  { intros e. destruct (left_with e); reflexivity. }
  cbv zeta. rewrite Hu.
  destruct (0 <=? max_samples) eqn:E.
  - apply Z.leb_le in E. rewrite Z.sub_0_r in H. split; [lia|right; lia].
  - apply Z.leb_gt in E. split; [lia|left; lia].
Qed.

End DriverMore.

(** ** What the completeness checks raise *)










(** ** Runs that no exception leaves *)

Lemma traverse_Ok {A B} (f : A -> result B) (l : list A) :
  Forall (fun x => exists y, f x = Ok y) l -> exists ys, traverse f l = Ok ys.
Proof.
  induction 1 as [|x l [y Hy] _ [ys IH]]; simpl; [eauto|].
  rewrite Hy, IH. simpl. eauto.
Qed.

Lemma zip_longest_objects (files : list (list line)) :
  Forall (Forall object_line) files ->
  Forall (Forall object_or_absent) (zip_longest files).
Proof.
  intros Hf. apply Forall_lookup. intros i lines Hi.
  assert (Hlt : (i < longest files)%nat).
  { apply lookup_lt_Some in Hi. rewrite zip_longest_length in Hi. exact Hi. }
  rewrite (zip_longest_lookup _ _ Hlt) in Hi. injection Hi as <-. clear Hlt.
  induction Hf as [|file files Hfile _ IH]; simpl; [constructor|].
  constructor; [|exact IH].
  destruct (file !! i) as [l|] eqn:El; simpl; [|exact I].
  rewrite Forall_lookup in Hfile. exact (Hfile i l El).
Qed.

Lemma closed_after_close (files : list (list line)) :
  Forall (fun h => closed h = true) (map close (map open files)).
Proof. induction files; simpl; constructor; [reflexivity|assumption]. Qed.

Section LoopCompletes.

Context {S : Type} (evaluator : Evaluator S).
Context (good : pyval -> Prop) (mode : string) (entries : S -> Z).

Hypothesis record_good :
  forall entry, object_or_absent entry ->
                exists v, record_of evaluator true entry = Ok v /\ good v.
Hypothesis update_good :
  forall self data, Forall good data -> exists self', update self data mode = Ok self'.
Hypothesis update_entries :
  forall self data self', update self data mode = Ok self' -> entries self' = entries self + 1.

Lemma collect_good (lines : list (option line)) :
  Forall object_or_absent lines ->
  exists data, collect evaluator true lines = Ok data /\ Forall good data.
Proof.
  unfold collect. induction 1 as [|entry lines He _ (data & IH & Hd)]; simpl.
  - exists []. split; [reflexivity|constructor].
  - destruct (record_good entry He) as (v & -> & Hv). rewrite IH. simpl.
    exists (v :: data). split; [reflexivity|constructor; assumption].
Qed.

Lemma loop_completes (k : Z) (tuples : list (list (option line))) :
  Forall (Forall object_or_absent) tuples ->
  forall idx self calls,
  exists self',
    left_with (loop evaluator true k mode idx tuples self calls) = Ok self' /\
    entries self' + Z.of_nat calls =
    entries self + Z.of_nat (update_calls (loop evaluator true k mode idx tuples self calls)).
Proof.
  induction 1 as [|lines tuples Hl _ IH]; intros idx self calls; simpl.
  - exists self. split; [reflexivity|lia].
  - destruct (idx =? k); [exists self; split; [reflexivity|simpl; lia]|].
    destruct (collect_good lines Hl) as (data & -> & Hd).
    destruct (update_good self data Hd) as (self1 & Hu). rewrite Hu.
    destruct (IH (idx + 1) self1 (Datatypes.S calls)) as (self' & H1 & H2).
    exists self'. split; [exact H1|].
    rewrite (update_entries _ _ _ Hu) in H2. lia.
Qed.

End LoopCompletes.

Lemma object_record_has_key (key : string) (items : list (string * pyval)) :
  contains key (PDict items) = Ok true -> has_key key (PDict items).
Proof.
  unfold has_key. simpl. destruct (assoc key items) as [v|]; [eauto|discriminate].
Qed.

Lemma math_record_good (entry : option line) :
  object_or_absent entry ->
  exists v, record_of MathEval_Evaluator true entry = Ok v /\
            has_key "is_correct" v /\ has_key "predicted_answer" v.
Proof.
  assert (Hph : has_key "is_correct" MathEval.fill_up_missing /\
                has_key "predicted_answer" MathEval.fill_up_missing)
    by (split; eexists; reflexivity).
  destruct entry as [l|]; [|intros _; simpl; eauto].
  intros [items ->]. cbn [record_of json_loads bind].
  destruct (truthy (PDict items)); cbn [negb]; [|simpl; eauto].
  change (is_incomplete (PDict items)) with (MathEval.is_incomplete (PDict items)).
  change (@fill_up_missing _ MathEval_Evaluator) with MathEval.fill_up_missing.
  unfold MathEval.is_incomplete.
  destruct (contains "is_correct" (PDict items)) as [[|]|] eqn:E1; [| |discriminate];
    cbn [bind negb]; [|eauto].
  destruct (contains "predicted_answer" (PDict items)) as [[|]|] eqn:E2; [| |discriminate];
    cbn [bind negb]; [|eauto].
  eexists. split; [reflexivity|]. split; apply object_record_has_key; assumption.
Qed.

Lemma math_best_good (self : MathEval.state) (data : list pyval) :
  Forall (fun v => has_key "is_correct" v /\ has_key "predicted_answer" v) data ->
  exists self', MathEval.update self data "best" = Ok self'.
Proof.
  intros H. unfold MathEval.update. simpl String.eqb. cbv iota.
  destruct (traverse_Ok (fun elem => getitem elem "is_correct") data) as [cs ->].
  { eapply Forall_impl; [exact H|]. intros v [H1 _]. exact H1. }
  destruct (traverse_Ok (fun elem => let! a := getitem elem "predicted_answer" in
                                     Ok (is_None a)) data) as [ans ->].
  { eapply Forall_impl; [exact H|]. intros v [_ [a ->]]. simpl. eauto. }
  simpl. eauto.
Qed.

(** X7: over streams whose lines all hold JSON objects, with
    [allow_incomplete=True] and the best mode, a run of [MathEval] raises
    nothing in its loop and closes its files: it returns metrics when it has
    processed a group, and raises [ZeroDivisionError] when it has processed
    none. *)
Theorem math_best_run_never_aborts (files : list (list line)) (max_samples : Z) :
  Forall (Forall object_line) files ->
  let r := compute_metrics MathEval_Evaluator files true max_samples "best" in
  Forall (fun h => closed h = true) (file_handles r) /\
  match returned r with
  | Ok _ => (0 < updates r)%nat
  | Raise e => e = ZeroDivisionError /\ updates r = 0%nat
  end.
Proof.
  intros Hf r.
  destruct (loop_completes MathEval_Evaluator _ "best" MathEval.total
              math_record_good math_best_good
              (fun self data self' H => math_update_total self self' data "best" H)
              max_samples (zip_longest files) (zip_longest_objects files Hf)
              0 reset 0%nat) as (self & Hl & He).
  subst r. unfold compute_metrics. rewrite content_open.
  rewrite Hl. simpl. split; [apply closed_after_close|].
  change (MathEval.total reset) with 0 in He.
  change (@reset MathEval.state MathEval_Evaluator) with MathEval.reset in He.
  unfold MathEval.get_metrics, percent.
  destruct (Z.eqb_spec (MathEval.total self) 0) as [E|E]; simpl.
  - split; [reflexivity|lia].
  - pose proof (loop_calls_le MathEval_Evaluator true max_samples "best"
                  (zip_longest files) 0 reset 0%nat). lia.
Qed.

Lemma code_update_total (self self' : CodeEval.state) group mode :
  CodeEval.update self group mode = Ok self' ->
  CodeEval.total self' = CodeEval.total self + 1.
Proof.
  unfold CodeEval.update.
  destruct (String.eqb mode "best"); [|destruct (String.eqb mode "first")]; intros H.
  - binds. injection H as <-. reflexivity.
  - destruct group; [discriminate|]. binds. injection H as <-. reflexivity.
  - discriminate.
Qed.

Lemma code_record_good (entry : option line) :
  object_or_absent entry ->
  exists v, record_of CodeEval_Evaluator true entry = Ok v /\
            has_key "is_correct" v /\ has_key "is_correct-plus" v.
Proof.
  assert (Hph : has_key "is_correct" CodeEval.fill_up_missing /\
                has_key "is_correct-plus" CodeEval.fill_up_missing)
    by (split; eexists; reflexivity).
  destruct entry as [l|]; [|intros _; simpl; eauto].
  intros [items ->]. cbn [record_of json_loads bind].
  destruct (truthy (PDict items)); cbn [negb]; [|simpl; eauto].
  change (is_incomplete (PDict items)) with (CodeEval.is_incomplete (PDict items)).
  change (@fill_up_missing _ CodeEval_Evaluator) with CodeEval.fill_up_missing.
  unfold CodeEval.is_incomplete.
  destruct (contains "is_correct" (PDict items)) as [[|]|] eqn:E1; [| |discriminate];
    cbn [bind negb]; [|eauto].
  destruct (contains "is_correct-plus" (PDict items)) as [[|]|] eqn:E2; [| |discriminate];
    cbn [bind negb]; [|eauto].
  eexists. split; [reflexivity|]. split; apply object_record_has_key; assumption.
Qed.

Lemma code_best_good (self : CodeEval.state) (data : list pyval) :
  Forall (fun v => has_key "is_correct" v /\ has_key "is_correct-plus" v) data ->
  exists self', CodeEval.update self data "best" = Ok self'.
Proof.
  intros H. unfold CodeEval.update. simpl String.eqb. cbv iota.
  destruct (traverse_Ok (fun elem => getitem elem "is_correct") data) as [cs ->].
  { eapply Forall_impl; [exact H|]. intros v [H1 _]. exact H1. }
  destruct (traverse_Ok (fun elem => getitem elem "is_correct-plus") data) as [ps ->].
  { eapply Forall_impl; [exact H|]. intros v [_ H2]. exact H2. }
  simpl. eauto.
Qed.

(** X8: the same for [CodeEval]: over streams of JSON objects, with
    [allow_incomplete=True] and the best mode, the run raises nothing in its
    loop and closes its files; it returns metrics when it has processed a
    group, and raises [ZeroDivisionError] when it has processed none. *)
Theorem code_best_run_never_aborts (files : list (list line)) (max_samples : Z) :
  Forall (Forall object_line) files ->
  let r := compute_metrics CodeEval_Evaluator files true max_samples "best" in
  Forall (fun h => closed h = true) (file_handles r) /\
  match returned r with
  | Ok _ => (0 < updates r)%nat
  | Raise e => e = ZeroDivisionError /\ updates r = 0%nat
  end.
Proof.
  intros Hf r.
  destruct (loop_completes CodeEval_Evaluator _ "best" CodeEval.total
              code_record_good code_best_good
              (fun self data self' H => code_update_total self self' data "best" H)
              max_samples (zip_longest files) (zip_longest_objects files Hf)
              0 reset 0%nat) as (self & Hl & He).
  subst r. unfold compute_metrics. rewrite content_open.
  rewrite Hl. simpl. split; [apply closed_after_close|].
  change (CodeEval.total reset) with 0 in He.
  change (@reset CodeEval.state CodeEval_Evaluator) with CodeEval.reset in He.
  unfold CodeEval.get_metrics, percent.
  destruct (Z.eqb_spec (CodeEval.total self) 0) as [E|E]; simpl.
  - split; [reflexivity|lia].
  - pose proof (loop_calls_le CodeEval_Evaluator true max_samples "best"
                  (zip_longest files) 0 reset 0%nat). lia.
Qed.

(** ** Counters *)

Lemma counter_incr_keys (p : pyval * pyval) (c : list ((pyval * pyval) * nat)) :
  forall e, In e (counter_incr p c) -> fst e = p \/ exists e', In e' c /\ fst e = fst e'.
Proof.
  induction c as [|[q n] c IH]; simpl; intros e He.
  - destruct He as [<-|[]]. left. reflexivity.
  - destruct (pair_eq q p).
    + destruct He as [<-|He]; right; [exists (q, n)|exists e]; simpl; auto.
    + destruct He as [<-|He]; [right; exists (q, n); simpl; auto|].
      destruct (IH e He) as [H|(e' & He' & H)]; [left; exact H|right; exists e'; auto].
Qed.

Lemma Counter_from_keys (l : list (pyval * pyval)) : forall c c',
  Counter_from c l = Ok c' ->
  forall e, In e c' -> In (fst e) l \/ exists e', In e' c /\ fst e = fst e'.
Proof.
  induction l as [|p l IH]; simpl; intros c c' H e He.
  - injection H as <-. right. exists e. auto.
  - destruct (hashable (fst p) && hashable (snd p)); [|discriminate].
    destruct (IH _ _ H e He) as [Hin|(e' & He' & Hf)]; [left; right; exact Hin|].
    destruct (counter_incr_keys p c e' He') as [Hp|(e'' & He'' & Hf')].
    + left. left. congruence.
    + right. exists e''. split; [exact He''|congruence].
Qed.

Lemma first_max_In (c : list ((pyval * pyval) * nat)) : forall best,
  In (first_max best c) (best :: c).
Proof.
  induction c as [|x c IH]; intros best; simpl; [auto|].
  destruct (IH (if (snd best <? snd x)%nat then x else best)) as [H|H]; [|auto].
  rewrite <- H. destruct (snd best <? snd x)%nat; auto.
Qed.

Lemma valid_answers_from_records (predictions : list pyval) : forall valid,
  MathEval.valid_answers_and_results predictions = Ok valid ->
  forall p, In p valid ->
            exists elem, In elem predictions /\ getitem elem "is_correct" = Ok (snd p).
Proof.
  induction predictions as [|elem predictions IH]; simpl; intros valid H p Hp.
  - injection H as <-. destruct Hp.
  - destruct (getitem elem "predicted_answer") as [a|] eqn:Ea; simpl in H; [|discriminate].
    destruct (is_None a).
    + destruct (IH _ H p Hp) as (x & Hx & Hc). eauto.
    + destruct (getitem elem "is_correct") as [c|] eqn:Ec; simpl in H; [|discriminate].
      destruct (MathEval.valid_answers_and_results predictions) as [ps|];
        simpl in H; [|discriminate].
      injection H as <-. destruct Hp as [<-|Hp]; [exists elem; auto|].
      destruct (IH _ eq_refl p Hp) as (x & Hx & Hc). eauto.
Qed.

(** One call of [MathEval.update] on records whose [is_correct] is a boolean
    counts one more entry and raises each of the other counters by one at
    most. *)
Lemma math_update_step (self self' : MathEval.state) (group : list pyval) (mode : string) :
  Forall (boolean_field "is_correct") group ->
  MathEval.update self group mode = Ok self' ->
  MathEval.total self' = MathEval.total self + 1 /\
  MathEval.total_correct self <= MathEval.total_correct self'
    <= MathEval.total_correct self + 1 /\
  MathEval.total_no_answer self <= MathEval.total_no_answer self'
    <= MathEval.total_no_answer self + 1.
Proof.
  intros Hb H. split; [eapply math_update_total, H|].
  revert H. unfold MathEval.update.
  destruct (String.eqb mode "best"); [|destruct (String.eqb mode "majority");
                                       [|destruct (String.eqb mode "first")]];
    intros H.
  - binds. injection H as <-. simpl.
    destruct (existsb truthy a), (forallb id a0); simpl; lia.
  - binds. destruct a as [|p valid] eqn:Ev.
    + injection H as <-. simpl. lia.
    + rewrite <- Ev in *. binds.
      destruct a0 as [|x rest]; [discriminate|]. simpl in H.
      destruct (first_max x rest) as [winner cnt] eqn:Em. binds.
      injection H as <-. simpl.
      assert (Hw : In winner a).
      { pose proof (first_max_In rest x) as Hin. rewrite Em in Hin.
        destruct (Counter_from_keys _ _ _ E0 _ Hin) as [Hv|(e' & [] & _)]. exact Hv. }
      destruct (valid_answers_from_records _ _ E _ Hw) as (elem & Helem & Hc).
      rewrite List.Forall_forall in Hb. destruct (Hb elem Helem _ Hc) as [b Hbool].
      rewrite Hbool in E1. simpl in E1. injection E1 as <-. destruct b; simpl; lia.
  - destruct group as [|first rest]; [discriminate|]. binds. injection H as <-. simpl.
    inversion Hb as [|? ? Hfirst _]; subst.
    destruct (Hfirst _ E) as [b ->]. simpl in E0. injection E0 as <-.
    destruct b, (is_None a1); simpl; lia.
  - discriminate.
Qed.

(** X9: the counters of [MathEval] stay within the number of entries.  After
    any sequence of calls of [update] that return, from a fresh evaluator, on
    groups whose [is_correct] values are booleans, [total] is the number of
    groups and [total_correct] and [total_no_answer] lie between [0] and
    [total]. *)
Theorem math_counters_within_total (groups : list (list pyval)) (mode : string)
        (self : MathEval.state) :
  Forall (Forall (boolean_field "is_correct")) groups ->
  update_all MathEval_Evaluator MathEval.reset groups mode = Ok self ->
  MathEval.total self = Z.of_nat (length groups) /\
  0 <= MathEval.total_correct self <= MathEval.total self /\
  0 <= MathEval.total_no_answer self <= MathEval.total self.
Proof.
  intros Hb H.
  assert (Hgen : forall start,
    update_all MathEval_Evaluator start groups mode = Ok self ->
    MathEval.total self = MathEval.total start + Z.of_nat (length groups) /\
    MathEval.total_correct start <= MathEval.total_correct self
      <= MathEval.total_correct start + Z.of_nat (length groups) /\
    MathEval.total_no_answer start <= MathEval.total_no_answer self
      <= MathEval.total_no_answer start + Z.of_nat (length groups)).
  { clear H. induction Hb as [|g groups Hg _ IH]; intros start H; simpl in H.
    - injection H as <-. simpl. lia.
    - binds. destruct (math_update_step _ _ _ _ Hg E) as (H1 & H2 & H3).
      destruct (IH _ H) as (H4 & H5 & H6). simpl length. lia. }
  destruct (Hgen _ H) as (H1 & H2 & H3). simpl in H1, H2, H3. lia.
Qed.

Lemma code_update_step (self self' : CodeEval.state) (group : list pyval) (mode : string) :
  Forall (fun elem => boolean_field "is_correct" elem /\
                      boolean_field "is_correct-plus" elem) group ->
  CodeEval.update self group mode = Ok self' ->
  CodeEval.total self' = CodeEval.total self + 1 /\
  CodeEval.total_correct self <= CodeEval.total_correct self'
    <= CodeEval.total_correct self + 1 /\
  CodeEval.total_correct_plus self <= CodeEval.total_correct_plus self'
    <= CodeEval.total_correct_plus self + 1.
Proof.
  intros Hb H. split; [eapply code_update_total, H|].
  revert H. unfold CodeEval.update.
  destruct (String.eqb mode "best"); [|destruct (String.eqb mode "first")]; intros H.
  - binds. injection H as <-. simpl.
    destruct (existsb truthy a), (existsb truthy a0); simpl; lia.
  - destruct group as [|first rest]; [discriminate|]. binds. injection H as <-. simpl.
    inversion Hb as [|? ? [Hc Hp] _]; subst.
    destruct (Hc _ E) as [b ->]. destruct (Hp _ E1) as [b' ->].
    simpl in E0, E2. injection E0 as <-. injection E2 as <-.
    destruct b, b'; simpl; lia.
  - discriminate.
Qed.

(** X10: the counters of [CodeEval] stay within the number of entries: after
    any sequence of calls of [update] that return, from a fresh evaluator, on
    groups whose two signals are booleans, [total] is the number of groups
    and both [total_correct] and [total_correct_plus] lie between [0] and
    [total]. *)
Theorem code_counters_within_total (groups : list (list pyval)) (mode : string)
        (self : CodeEval.state) :
  Forall (Forall (fun elem => boolean_field "is_correct" elem /\
                              boolean_field "is_correct-plus" elem)) groups ->
  update_all CodeEval_Evaluator CodeEval.reset groups mode = Ok self ->
  CodeEval.total self = Z.of_nat (length groups) /\
  0 <= CodeEval.total_correct self <= CodeEval.total self /\
  0 <= CodeEval.total_correct_plus self <= CodeEval.total self.
Proof.
  intros Hb H.
  assert (Hgen : forall start,
    update_all CodeEval_Evaluator start groups mode = Ok self ->
    CodeEval.total self = CodeEval.total start + Z.of_nat (length groups) /\
    CodeEval.total_correct start <= CodeEval.total_correct self
      <= CodeEval.total_correct start + Z.of_nat (length groups) /\
    CodeEval.total_correct_plus start <= CodeEval.total_correct_plus self
      <= CodeEval.total_correct_plus start + Z.of_nat (length groups)).
  { clear H. induction Hb as [|g groups Hg _ IH]; intros start H; simpl in H.
    - injection H as <-. simpl. lia.
    - binds. destruct (code_update_step _ _ _ _ Hg E) as (H1 & H2 & H3).
      destruct (IH _ H) as (H4 & H5 & H6). simpl length. lia. }
  destruct (Hgen _ H) as (H1 & H2 & H3). simpl in H1, H2, H3. lia.
Qed.

(** The loop over the categories leaves the prompt and instruction counters
    alone. *)
Lemma tier0_loop_counters (pairs : list (pyval * pyval)) : forall stats_dict stats',
  IFEval.tier0_loop stats_dict pairs = Ok stats' ->
  IFEval.prompt_total stats' = IFEval.prompt_total stats_dict /\
  IFEval.prompt_correct stats' = IFEval.prompt_correct stats_dict /\
  IFEval.instruction_total stats' = IFEval.instruction_total stats_dict /\
  IFEval.instruction_correct stats' = IFEval.instruction_correct stats_dict.
Proof.
  induction pairs as [|[id f] pairs IH]; simpl; intros stats_dict stats' H.
  - injection H as <-. auto.
  - binds. apply IH in H. simpl in H. exact H.
Qed.

Lemma update_single_stat_prompt (stats_dict stats' : IFEval.stats) (elems : list pyval) :
  IFEval._update_single_stat stats_dict elems = Ok stats' ->
  IFEval.prompt_total stats' = IFEval.prompt_total stats_dict + 1 /\
  IFEval.prompt_correct stats_dict <= IFEval.prompt_correct stats'
    <= IFEval.prompt_correct stats_dict + 1.
Proof.
  unfold IFEval._update_single_stat. destruct elems as [|first rest]; [discriminate|].
  intros H. binds. apply tier0_loop_counters in H. simpl in H.
  destruct H as (H1 & H2 & _). rewrite H1, H2.
  destruct (forallb truthy a2); lia.
Qed.

Lemma ifeval_update_prompt (self self' : IFEval.state) (group : list pyval) (mode : string) :
  IFEval.update self group mode = Ok self' ->
  (IFEval.prompt_total (IFEval.strict_stats self') =
     IFEval.prompt_total (IFEval.strict_stats self) + 1 /\
   IFEval.prompt_correct (IFEval.strict_stats self)
     <= IFEval.prompt_correct (IFEval.strict_stats self')
     <= IFEval.prompt_correct (IFEval.strict_stats self) + 1) /\
  (IFEval.prompt_total (IFEval.loose_stats self') =
     IFEval.prompt_total (IFEval.loose_stats self) + 1 /\
   IFEval.prompt_correct (IFEval.loose_stats self)
     <= IFEval.prompt_correct (IFEval.loose_stats self')
     <= IFEval.prompt_correct (IFEval.loose_stats self) + 1).
Proof.
  unfold IFEval.update.
  destruct (String.eqb mode "best"); [|destruct (String.eqb mode "first")]; intros H.
  - binds. injection H as <-. simpl.
    split; eapply update_single_stat_prompt; eassumption.
  - destruct group as [|first rest]; [discriminate|]. binds. injection H as <-. simpl.
    split; eapply update_single_stat_prompt; eassumption.
  - discriminate.
Qed.

(** X11: in [IFEval] the strict and the loose statistics count the same
    prompts: after any sequence of calls of [update] that return, from a
    fresh evaluator, both prompt totals are the number of groups (so that
    [get_metrics] may divide the loose count by the strict total), and both
    counts of correct prompts lie between [0] and that number. *)
Theorem ifeval_prompt_totals_agree (groups : list (list pyval)) (mode : string)
        (self : IFEval.state) :
  update_all IFEval_Evaluator IFEval.reset groups mode = Ok self ->
  IFEval.prompt_total (IFEval.strict_stats self) = Z.of_nat (length groups) /\
  IFEval.prompt_total (IFEval.loose_stats self) = Z.of_nat (length groups) /\
  0 <= IFEval.prompt_correct (IFEval.strict_stats self) <= Z.of_nat (length groups) /\
  0 <= IFEval.prompt_correct (IFEval.loose_stats self) <= Z.of_nat (length groups).
Proof.
  intros H.
  assert (Hgen : forall start,
    update_all IFEval_Evaluator start groups mode = Ok self ->
    let n := Z.of_nat (length groups) in
    IFEval.prompt_total (IFEval.strict_stats self) =
      IFEval.prompt_total (IFEval.strict_stats start) + n /\
    IFEval.prompt_total (IFEval.loose_stats self) =
      IFEval.prompt_total (IFEval.loose_stats start) + n /\
    IFEval.prompt_correct (IFEval.strict_stats start)
      <= IFEval.prompt_correct (IFEval.strict_stats self)
      <= IFEval.prompt_correct (IFEval.strict_stats start) + n /\
    IFEval.prompt_correct (IFEval.loose_stats start)
      <= IFEval.prompt_correct (IFEval.loose_stats self)
      <= IFEval.prompt_correct (IFEval.loose_stats start) + n).
  { clear H. induction groups as [|g groups IH]; intros start H; simpl in H.
    - injection H as <-. simpl. lia.
    - binds. destruct (ifeval_update_prompt _ _ _ _ E) as ((H1 & H2) & (H3 & H4)).
      destruct (IH _ H) as (H5 & H6 & H7 & H8). cbv zeta. simpl length. lia. }
  destruct (Hgen _ H) as (H1 & H2 & H3 & H4). simpl in H1, H2, H3, H4. lia.
Qed.

(** ** The best mode and the order of the records *)

Lemma traverse_Permutation {A B} (f : A -> result B) (l l' : list A) :
  Permutation l l' ->
  forall ys, traverse f l = Ok ys ->
             exists ys', traverse f l' = Ok ys' /\ Permutation ys ys'.
Proof.
  induction 1 as [|x l l' _ IH|x y l|l l' l'' _ IH1 _ IH2]; intros ys H; simpl in *.
  - injection H as <-. eauto.
  - binds. injection H as <-. destruct (IH _ E0) as (ys' & -> & Hp).
    rewrite E. simpl. eauto.
  - destruct (f y) as [b|] eqn:Ey; simpl in H; [|discriminate].
    destruct (f x) as [a|] eqn:Ex; simpl in H; [|discriminate].
    destruct (traverse f l) as [r|] eqn:El; simpl in H; [|discriminate].
    injection H as <-. simpl. eexists. split; [reflexivity|apply perm_swap].
  - destruct (IH1 _ H) as (ys1 & H1 & Hp1). destruct (IH2 _ H1) as (ys2 & H2 & Hp2).
    exists ys2. split; [exact H2|]. eapply perm_trans; eassumption.
Qed.

Lemma existsb_Permutation {A} (p : A -> bool) (l l' : list A) :
  Permutation l l' -> existsb p l = existsb p l'.
Proof.
  induction 1; simpl; try congruence.
  destruct (p x), (p y); reflexivity.
Qed.

Lemma forallb_Permutation {A} (p : A -> bool) (l l' : list A) :
  Permutation l l' -> forallb p l = forallb p l'.
Proof.
  induction 1; simpl; try congruence.
  destruct (p x), (p y); reflexivity.
Qed.

(** X12: under the best mode the order of the records within a group does
    not matter to [MathEval]: on records that have both keys, reordering the
    group gives the same evaluator. *)
Theorem math_best_ignores_order (self : MathEval.state) (group group' : list pyval) :
  Permutation group group' ->
  Forall (fun v => has_key "is_correct" v /\ has_key "predicted_answer" v) group ->
  MathEval.update self group' "best" = MathEval.update self group "best".
Proof.
  intros Hp Hk. unfold MathEval.update. simpl String.eqb. cbv iota.
  destruct (traverse_Ok (fun elem => getitem elem "is_correct") group) as [cs Hcs].
  { eapply Forall_impl; [exact Hk|]. intros v [H1 _]. exact H1. }
  destruct (traverse_Ok (fun elem => let! a := getitem elem "predicted_answer" in
                                     Ok (is_None a)) group) as [ans Hans].
  { eapply Forall_impl; [exact Hk|]. intros v [_ [a ->]]. simpl. eauto. }
  destruct (traverse_Permutation _ _ _ Hp _ Hcs) as (cs' & Hcs' & Pc).
  destruct (traverse_Permutation _ _ _ Hp _ Hans) as (ans' & Hans' & Pa).
  rewrite Hcs, Hcs', Hans, Hans'. simpl.
  rewrite (existsb_Permutation _ _ _ Pc), (forallb_Permutation _ _ _ Pa). reflexivity.
Qed.

(** X13: the same for [CodeEval]. *)
Theorem code_best_ignores_order (self : CodeEval.state) (group group' : list pyval) :
  Permutation group group' ->
  Forall (fun v => has_key "is_correct" v /\ has_key "is_correct-plus" v) group ->
  CodeEval.update self group' "best" = CodeEval.update self group "best".
Proof.
  intros Hp Hk. unfold CodeEval.update. simpl String.eqb. cbv iota.
  destruct (traverse_Ok (fun elem => getitem elem "is_correct") group) as [cs Hcs].
  { eapply Forall_impl; [exact Hk|]. intros v [H1 _]. exact H1. }
  destruct (traverse_Ok (fun elem => getitem elem "is_correct-plus") group) as [ps Hps].
  { eapply Forall_impl; [exact Hk|]. intros v [_ H2]. exact H2. }
  destruct (traverse_Permutation _ _ _ Hp _ Hcs) as (cs' & Hcs' & Pc).
  destruct (traverse_Permutation _ _ _ Hp _ Hps) as (ps' & Hps' & Pp).
  rewrite Hcs, Hcs', Hps, Hps'. simpl.
  rewrite (existsb_Permutation _ _ _ Pc), (existsb_Permutation _ _ _ Pp). reflexivity.
Qed.

(** ** Groups of placeholders *)

Lemma traverse_replicate {A B} (f : A -> result B) (x : A) (y : B) (n : nat) :
  f x = Ok y -> traverse f (replicate n x) = Ok (replicate n y).
Proof.
  intros H. induction n as [|n IH]; simpl; [reflexivity|]. rewrite H, IH. reflexivity.
Qed.

Lemma existsb_replicate_false {A} (p : A -> bool) (x : A) (n : nat) :
  p x = false -> existsb p (replicate n x) = false.
Proof. intros H. induction n; simpl; [reflexivity|]. rewrite H. assumption. Qed.

Lemma forallb_replicate_true {A} (p : A -> bool) (x : A) (n : nat) :
  p x = true -> forallb p (replicate n x) = true.
Proof. intros H. induction n; simpl; [reflexivity|]. rewrite H. assumption. Qed.

Lemma valid_answers_of_placeholders (n : nat) :
  MathEval.valid_answers_and_results (replicate n MathEval.fill_up_missing) = Ok [].
Proof. induction n; simpl; [reflexivity|assumption]. Qed.

(** X14: a sample that is missing from every stream counts, for [MathEval],
    as an entry without answer and not as a correct one, under each of the
    three modes and for any number of streams. *)
Theorem math_all_missing_is_no_answer (self : MathEval.state) (n : nat) (mode : string) :
  mode = "best" \/ mode = "majority" \/ mode = "first" ->
  MathEval.update self (replicate (Datatypes.S n) MathEval.fill_up_missing) mode =
    Ok {| MathEval.total_correct := MathEval.total_correct self;
          MathEval.total_no_answer := MathEval.total_no_answer self + 1;
          MathEval.total := MathEval.total self + 1 |}.
Proof.
  intros [-> | [-> | ->]]; unfold MathEval.update; simpl String.eqb; cbv iota.
  - rewrite (traverse_replicate _ MathEval.fill_up_missing (PBool false)) by reflexivity.
    rewrite (traverse_replicate _ MathEval.fill_up_missing true) by reflexivity.
    cbn [bind]. rewrite existsb_replicate_false, forallb_replicate_true by reflexivity.
    simpl. rewrite Z.add_0_r. reflexivity.
  - rewrite valid_answers_of_placeholders. reflexivity.
  - simpl. rewrite Z.add_0_r. reflexivity.
Qed.

(** X15: and for [CodeEval] it counts as an entry that passes neither test
    suite, under both of its modes. *)
Theorem code_all_missing_passes_nothing (self : CodeEval.state) (n : nat) (mode : string) :
  mode = "best" \/ mode = "first" ->
  CodeEval.update self (replicate (Datatypes.S n) CodeEval.fill_up_missing) mode =
    Ok {| CodeEval.total_correct := CodeEval.total_correct self;
          CodeEval.total_correct_plus := CodeEval.total_correct_plus self;
          CodeEval.total := CodeEval.total self + 1 |}.
Proof.
  intros [-> | ->]; unfold CodeEval.update; simpl String.eqb; cbv iota.
  - rewrite (traverse_replicate (fun elem => getitem elem "is_correct")
               CodeEval.fill_up_missing (PBool false)) by reflexivity.
    rewrite (traverse_replicate (fun elem => getitem elem "is_correct-plus")
               CodeEval.fill_up_missing (PBool false)) by reflexivity.
    cbn [bind]. rewrite !existsb_replicate_false by reflexivity.
    simpl. rewrite !Z.add_0_r. reflexivity.
  - simpl. rewrite !Z.add_0_r. reflexivity.
Qed.

(** ** Aggregation modes *)

(** X16: [CodeEval] and [IFEval] implement the best and the first mode only:
    under any other mode, the majority mode included, [update] raises
    [ValueError] naming the mode, whatever the group; [MathEval] does so
    under any mode other than its three. *)
Theorem unsupported_mode_is_rejected (mode : string) (group : list pyval)
        (math : MathEval.state) (code : CodeEval.state) (ifeval : IFEval.state) :
  mode <> "best" -> mode <> "first" ->
  CodeEval.update code group mode = Raise (ValueError ("Unsupported mode " +:+ mode)) /\
  IFEval.update ifeval group mode = Raise (ValueError ("Unsupported mode " +:+ mode)) /\
  (mode = "majority" \/
   MathEval.update math group mode = Raise (ValueError ("Unsupported mode " +:+ mode))).
Proof.
  intros Hb Hf. apply String.eqb_neq in Hb, Hf.
  unfold CodeEval.update, IFEval.update, MathEval.update. rewrite Hb, Hf.
  split; [reflexivity|]. split; [reflexivity|].
  destruct (String.eqb_spec mode "majority") as [E|E]; [left; exact E|right; reflexivity].
Qed.

(** ** IFEval *)

(** X17: for [IFEval] the first mode on a group is the best mode on its first
    record alone. *)
Theorem ifeval_first_is_best_of_first (self : IFEval.state) (first : pyval)
        (others : list pyval) :
  IFEval.update self (first :: others) "first" = IFEval.update self [first] "best".
Proof.
  unfold IFEval.update. simpl String.eqb. cbv iota. cbn [traverse].
  destruct (getitem first "strict_eval") as [s|]; cbn [bind]; [|reflexivity].
  destruct (IFEval._update_single_stat (IFEval.strict_stats self) [s]); cbn [bind];
    [|reflexivity].
  destruct (getitem first "loose_eval") as [l|]; reflexivity.
Qed.

(** X18: when every record's list is at least as long as the first record's,
    the merge of the best mode returns, at each position of the first
    record's list, the [or] of the values of all the records at that
    position. *)
Theorem best_merge_is_elementwise_or (ids0 : list string) (f0 : list bool)
        (rest : list (list string * list bool)) :
  Forall (fun b => (length f0 <= length (snd b))%nat) rest ->
  exists merged,
    IFEval.or_all (PList (map PBool f0)) (eval_block ids0 f0 :: blocks_of rest) =
      Ok (PList (map PBool merged)) /\
    length merged = length f0 /\
    forall i, (i < length f0)%nat ->
              merged !! i =
              Some (existsb (fun follows => nth i follows false) (f0 :: map snd rest)).
Proof.
  intros Hlen. exists (fold_left or_lists (f0 :: map snd rest) f0).
  split; [|split].
  - rewrite (or_all_spec (eval_block ids0 f0 :: blocks_of rest) (f0 :: map snd rest)
               (blocks_have_follow_lists ((ids0, f0) :: rest)) f0).
    rewrite all_readable_longer; [reflexivity|].
    constructor; [lia|].
    apply List.Forall_forall. intros f Hf. apply in_map_iff in Hf.
    destruct Hf as (b & <- & Hb). rewrite List.Forall_forall in Hlen. apply Hlen, Hb.
  - apply fold_or_lists_length.
  - intros i Hi. rewrite merged_lookup.
    destruct (lookup_lt_is_Some_2 f0 i Hi) as [x Hx]. rewrite Hx. simpl.
    rewrite (nth_lookup_Some _ _ false _ Hx).
    destruct x; reflexivity.
Qed.

Lemma incr_lookup (key category : string) (d : gmap string Z) :
  default 0 (IFEval.incr key d !! category) =
  default 0 (d !! category) + (if String.eqb key category then 1 else 0).
Proof.
  unfold IFEval.incr. destruct (String.eqb_spec key category) as [->|Hne].
  - rewrite lookup_insert_eq. reflexivity.
  - rewrite lookup_insert_ne by exact Hne. lia.
Qed.

(** X19: the per-category tallies.  Over the pairs of an instruction id and
    whether it was followed, the loop adds to the total of a category the
    number of ids whose part before the colon is that category, and to its
    correct count the number of those that were followed; it raises
    nothing. *)
Theorem tier0_counts_by_category (pairs : list (string * bool)) :
  forall stats_dict : IFEval.stats,
  exists stats',
    IFEval.tier0_loop stats_dict (map (fun p => (PStr (fst p), PBool (snd p))) pairs) =
      Ok stats' /\
    forall category,
      default 0 (IFEval.tier0_total stats' !! category) =
        default 0 (IFEval.tier0_total stats_dict !! category) +
        Z.of_nat (length (List.filter
                            (fun p => String.eqb (before_colon (fst p)) category) pairs)) /\
      default 0 (IFEval.tier0_correct stats' !! category) =
        default 0 (IFEval.tier0_correct stats_dict !! category) +
        Z.of_nat (length (List.filter
                            (fun p => String.eqb (before_colon (fst p)) category && snd p)
                            pairs)).
Proof.
  induction pairs as [|[id f] pairs IH]; intros stats_dict; simpl.
  - exists stats_dict. split; [reflexivity|]. intros category. lia.
  - match goal with
    | |- context [IFEval.tier0_loop ?st _] => destruct (IH st) as (stats' & -> & H)
    end.
    exists stats'. split; [reflexivity|]. intros category.
    destruct (H category) as [H1 H2]. simpl in H1, H2. rewrite H1, H2.
    rewrite incr_lookup.
    destruct f; simpl; rewrite ?incr_lookup;
      destruct (String.eqb (before_colon id) category); simpl length; lia.
Qed.

Lemma before_colon_free (s : string) : colon_free (before_colon s) = true.
Proof.
  induction s as [|c s IH]; simpl; [reflexivity|].
  destruct (Ascii.eqb c ":") eqn:E; simpl; [reflexivity|]. rewrite E, IH. reflexivity.
Qed.

(** X20: the category of an instruction id is its part before the first
    colon, and the whole id when it has no colon: for a colon-free [category],
    the ids [category] and [category:detail] both have the category
    [category], whatever [detail]; and a category never holds a colon. *)
Theorem category_is_the_part_before_the_colon (category detail : string) :
  colon_free category = true ->
  before_colon category = category /\
  before_colon (category +:+ String ":" detail) = category /\
  colon_free (before_colon detail) = true.
Proof.
  intros H. split; [|split; [|apply before_colon_free]].
  - induction category as [|c s IH]; simpl in *; [reflexivity|].
    apply andb_true_iff in H. destruct H as [Hc Hs].
    apply negb_true_iff in Hc. rewrite Hc. f_equal. apply IH, Hs.
  - induction category as [|c s IH]; simpl in *; [reflexivity|].
    apply andb_true_iff in H. destruct H as [Hc Hs].
    apply negb_true_iff in Hc. rewrite Hc. f_equal. apply IH, Hs.
Qed.

(** * The job launcher *)

Lemma append_length (a b : string) :
  String.length (a +:+ b) = (String.length a + String.length b)%nat.
Proof. induction a as [|c a IH]; simpl; [reflexivity|]. rewrite IH. reflexivity. Qed.

Lemma append_inj_l (a b b' : string) : a +:+ b = a +:+ b' -> b = b'.
Proof. induction a as [|c a IH]; simpl; intros H; [exact H|]. injection H as H. auto. Qed.

Lemma append_inj_r (b : string) : forall a a' : string, a +:+ b = a' +:+ b -> a = a'.
Proof.
  induction a as [|c a IH]; intros [|c' a'] H; simpl in H.
  - reflexivity.
  - apply (f_equal String.length) in H. simpl in H. rewrite ?append_length in H.
    simpl in H. lia.
  - apply (f_equal String.length) in H. simpl in H. rewrite ?append_length in H.
    simpl in H. lia.
  - injection H as -> H. f_equal. apply IH, H.
Qed.

Lemma str_of_int_inj (z z' : Z) : Generate.str_of_int z = Generate.str_of_int z' -> z = z'.
Proof.
  unfold Generate.str_of_int. intros H. apply DecimalZ.to_int_inj.
  assert (Hparse : forall n,
            DecimalString.NilZero.int_of_string
              (DecimalString.NilZero.string_of_int (Z.to_int n)) = Some (Z.to_int n)).
  { intros n. apply DecimalString.NilZero.isi; destruct n; simpl; try discriminate;
      intros E; injection E; apply DecimalPos.Unsigned.to_uint_nonnil. }
  pose proof (Hparse z) as Hz. rewrite H, Hparse in Hz. injection Hz as Hz. congruence.
Qed.

(** X21: no two generation jobs write to the same file: the output files of
    two different seeds differ, and both differ from the output file of the
    run without seed. *)
Theorem output_files_are_distinct (output_dir : string) (seed seed' : Z) :
  seed <> seed' ->
  Generate.output_file output_dir (Some seed) <> Generate.output_file output_dir (Some seed') /\
  Generate.output_file output_dir (Some seed) <> Generate.output_file output_dir None.
Proof.
  intros Hne. unfold Generate.output_file. split; intros H; apply append_inj_l in H.
  - apply append_inj_l, append_inj_r in H. apply Hne, str_of_int_inj, H.
  - simpl in H. discriminate H.
Qed.

Lemma output_files_are_distinct_witness :
  Generate.output_file "/results" (Some 0) <> Generate.output_file "/results" (Some 1) /\
  Generate.output_file "/results" (Some 0) <> Generate.output_file "/results" None.
Proof. apply (output_files_are_distinct "/results" 0 1). lia. Defined.

Section LauncherFacts.

Context (get_cluster_config : option string -> option string -> result pyval).
Context (check_if_mounted : pyval -> string -> result unit).
Context (get_generation_command : string -> string -> string).

Lemma seed_tasks_spec (seeds : list Z) cluster_config output_dir extra_arguments
      server_address log_dir eval_args partition run_after server dependent_jobs :
  forall tasks,
  Generate.seed_tasks get_generation_command seeds cluster_config output_dir
                      extra_arguments server_address log_dir eval_args partition
                      run_after server dependent_jobs = Generate.Done tasks ->
  (seeds = [] \/ dependent_jobs = 0) /\
  Forall2 (fun seed t =>
             Generate.task_name t = "generate-rs" +:+ Generate.str_of_int seed /\
             Generate.cmd t =
               get_generation_command server_address
                 (Generate.get_cmd output_dir extra_arguments (Some seed) eval_args) /\
             Generate.with_sandbox t = true)
          seeds tasks.
Proof.
  induction seeds as [|seed seeds IH]; simpl; intros tasks H.
  - injection H as <-. split; [left; reflexivity|constructor].
  - destruct (Z.eqb_spec dependent_jobs 0) as [E|E]; simpl in H; [|discriminate].
    destruct (let! containers := getitem cluster_config "containers" in
              getitem containers "nemo-skills"); [|discriminate].
    destruct (Generate.seed_tasks _ seeds _ _ _ _ _ _ _ _ _ _) as [rest|]; [|discriminate].
    injection H as <-. destruct (IH rest eq_refl) as [_ IH2].
    split; [right; exact E|]. constructor; [|exact IH2]. simpl. auto.
Qed.

Lemma range_NoDup (start stop : Z) : NoDup (Generate.range start stop).
Proof.
  unfold Generate.range. apply NoDup_fmap_2; [|apply NoDup_seq].
  intros i j H. lia.
Qed.

Lemma range_lookup (start stop : Z) (i : nat) :
  (i < Z.to_nat (stop - start))%nat ->
  Generate.range start stop !! i = Some (start + Z.of_nat i).
Proof.
  intros Hi. unfold Generate.range. rewrite list_lookup_fmap, lookup_seq_lt by exact Hi.
  reflexivity.
Qed.

Lemma seeded_names_NoDup (seeds : list Z) (tasks : list Generate.task) :
  Forall2 (fun seed t =>
             Generate.task_name t = "generate-rs" +:+ Generate.str_of_int seed) seeds tasks ->
  NoDup seeds -> NoDup (map Generate.task_name tasks).
Proof.
  induction 1 as [|seed t seeds tasks Hn Hrest IH]; intros Hd; simpl; [constructor|].
  apply NoDup_cons in Hd. destruct Hd as [Hnotin Hd].
  apply NoDup_cons. split; [|apply IH, Hd].
  intros Hin. apply Hnotin.
  apply list_elem_of_In, in_map_iff in Hin. destruct Hin as (t' & Hname & Ht').
  apply list_elem_of_In in Ht'. apply list_elem_of_lookup in Ht'. destruct Ht' as [i Hi].
  destruct (Forall2_lookup_r _ _ _ _ _ Hrest Hi) as (seed' & Hs' & Hn').
  rewrite Hn, Hn' in Hname. apply append_inj_l, str_of_int_inj in Hname.
  subst seed'. apply list_elem_of_lookup. eauto.
Qed.

(** X22: with [num_random_seeds = n], [n] positive, a call of [generate] that
    reaches [run_exp] has added exactly [n] tasks, one per seed from
    [starting_seed] on, in order: the task of index [i] is named
    [generate-rs] followed by the seed [starting_seed + i] and runs the
    command of [get_cmd] for that seed, with a sandbox; the names are pairwise
    different; and no dependent job was asked for. *)
Theorem generate_adds_one_task_per_seed
        (ctx_args : list string) (cluster : option string) (output_dir : string)
        (model server_address : option string) (server_type : string)
        (server_gpus : option Z) (server_nodes : Z) (server_args : string)
        (dependent_jobs n starting_seed : Z)
        (partition eval_args run_after config_dir log_dir : option string)
        (tasks : list Generate.task) :
  0 < n ->
  Generate.generate get_cluster_config check_if_mounted get_generation_command
                    ctx_args cluster output_dir model server_address server_type
                    server_gpus server_nodes server_args dependent_jobs (Some n)
                    starting_seed partition eval_args run_after config_dir log_dir =
    Generate.Done tasks ->
  dependent_jobs = 0 /\
  length tasks = Z.to_nat n /\
  NoDup (map Generate.task_name tasks) /\
  exists address extra_arguments,
    forall i, (i < Z.to_nat n)%nat ->
      exists t,
        tasks !! i = Some t /\
        Generate.task_name t =
          "generate-rs" +:+ Generate.str_of_int (starting_seed + Z.of_nat i) /\
        Generate.cmd t =
          get_generation_command address
            (Generate.get_cmd output_dir extra_arguments
                              (Some (starting_seed + Z.of_nat i)) eval_args) /\
        Generate.with_sandbox t = true.
Proof.
  intros Hn. unfold Generate.generate.
  destruct (get_cluster_config cluster config_dir) as [cluster_config|]; [|discriminate].
  destruct (check_if_mounted cluster_config output_dir); [|discriminate].
  match goal with
  | |- context [match ?x with Ok log_dir0 => _ | Raise e => Generate.Failed (Generate.Raised e) end] =>
      destruct x as [log_dir'|]; [|discriminate]
  end.
  match goal with
  | |- context [match ?x with Generate.Done _ => _ | Generate.Failed f => Generate.Failed f end] =>
      destruct x as [[[address server] extra_arguments]|]; [|discriminate]
  end.
  replace (n =? 0) with false by (symmetry; apply Z.eqb_neq; lia).
  simpl negb. cbv iota. simpl default. intros H.
  apply seed_tasks_spec in H. destruct H as [Hdep Hall].
  assert (Hlen : length (Generate.range starting_seed (starting_seed + n)) = Z.to_nat n).
  { unfold Generate.range. rewrite length_map, length_seq. f_equal. lia. }
  split.
  { destruct Hdep as [Hnil|Hdep]; [|exact Hdep].
    rewrite Hnil in Hlen. simpl in Hlen. lia. }
  split; [rewrite <- (Forall2_length _ _ _ Hall); exact Hlen|].
  split.
  { apply (seeded_names_NoDup (Generate.range starting_seed (starting_seed + n)));
      [|apply range_NoDup].
    eapply Forall2_impl; [exact Hall|]. intros seed t (H1 & _). exact H1. }
  exists address, extra_arguments. intros i Hi.
  assert (Hseed : Generate.range starting_seed (starting_seed + n) !! i =
                  Some (starting_seed + Z.of_nat i))
    by (apply range_lookup; lia).
  destruct (Forall2_lookup_l _ _ _ _ _ Hall Hseed) as (t & Ht & H1 & H2 & H3).
  exists t. auto.
Qed.

(** X23: when dependent jobs are asked for, [generate] never launches a
    task: it fails on its assertion, or on an earlier check, or it was called
    with a negative [num_random_seeds] and adds no task at all. *)
Theorem dependent_jobs_launch_nothing
        (ctx_args : list string) (cluster : option string) (output_dir : string)
        (model server_address : option string) (server_type : string)
        (server_gpus : option Z) (server_nodes : Z) (server_args : string)
        (dependent_jobs : Z) (num_random_seeds : option Z) (starting_seed : Z)
        (partition eval_args run_after config_dir log_dir : option string)
        (tasks : list Generate.task) :
  dependent_jobs <> 0 ->
  Generate.generate get_cluster_config check_if_mounted get_generation_command
                    ctx_args cluster output_dir model server_address server_type
                    server_gpus server_nodes server_args dependent_jobs num_random_seeds
                    starting_seed partition eval_args run_after config_dir log_dir =
    Generate.Done tasks ->
  tasks = [] /\ exists n, num_random_seeds = Some n /\ n < 0.
Proof.
  intros Hd. unfold Generate.generate.
  destruct (get_cluster_config cluster config_dir) as [cluster_config|]; [|discriminate].
  destruct (check_if_mounted cluster_config output_dir); [|discriminate].
  match goal with
  | |- context [match ?x with Ok log_dir0 => _ | Raise e => Generate.Failed (Generate.Raised e) end] =>
      destruct x as [log_dir'|]; [|discriminate]
  end.
  match goal with
  | |- context [match ?x with Generate.Done _ => _ | Generate.Failed f => Generate.Failed f end] =>
      destruct x as [[[address server] extra_arguments]|]; [|discriminate]
  end.
  replace (dependent_jobs =? 0) with false by (symmetry; apply Z.eqb_neq; exact Hd).
  destruct num_random_seeds as [n|]; simpl; [|discriminate].
  destruct (Z.eqb_spec n 0) as [E|E]; simpl; [discriminate|].
  intros H. apply seed_tasks_spec in H. destruct H as [[Hnil|Hdep] Hall]; [|contradiction].
  rewrite Hnil in Hall. inversion Hall; subst. split; [reflexivity|].
  exists n. split; [reflexivity|].
  unfold Generate.range in Hnil. apply (f_equal length) in Hnil.
  rewrite length_map, length_seq in Hnil. simpl in Hnil. lia.
Qed.

(** X24: [generate] does not host a model without a count of GPUs: called
    without server address and without [server_gpus], it launches nothing. *)
Theorem hosting_needs_server_gpus
        (ctx_args : list string) (cluster : option string) (output_dir : string)
        (model : option string) (server_type : string)
        (server_nodes : Z) (server_args : string)
        (dependent_jobs : Z) (num_random_seeds : option Z) (starting_seed : Z)
        (partition eval_args run_after config_dir log_dir : option string) :
  match Generate.generate get_cluster_config check_if_mounted get_generation_command
                          ctx_args cluster output_dir model None server_type
                          None server_nodes server_args dependent_jobs num_random_seeds
                          starting_seed partition eval_args run_after config_dir log_dir with
  | Generate.Done _ => False
  | Generate.Failed (Generate.AssertionError msg) =>
      msg = Some "Need to specify server_gpus if hosting the model"
  | Generate.Failed (Generate.Raised _) => True
  end.
Proof.
  unfold Generate.generate.
  destruct (get_cluster_config cluster config_dir) as [cluster_config|]; [|exact I].
  destruct (check_if_mounted cluster_config output_dir); [|exact I].
  match goal with
  | |- context [match ?x with Ok log_dir0 => _ | Raise e => Generate.Failed (Generate.Raised e) end] =>
      destruct x as [log_dir'|]; [|exact I]
  end.
  reflexivity.
Qed.

End LauncherFacts.

(** * The counters of an instruction-following update *)

Lemma sum_from_count (l : list bool) : forall acc,
  IFEval.sum_from acc (map PBool l) = Ok (acc + Z.of_nat (length (List.filter id l))).
Proof.
  induction l as [|x l IH]; intros acc; simpl.
  - rewrite Z.add_0_r. reflexivity.
  - rewrite IH. destruct x; simpl; f_equal; lia.
Qed.

Lemma forallb_truthy_bools (l : list bool) :
  forallb truthy (map PBool l) = forallb id l.
Proof. induction l as [|x l IH]; simpl; [reflexivity|]. rewrite IH. reflexivity. Qed.

(** X25: the update rule of [IFEval] for one strictness level.  On a group of
    blocks whose lists of booleans are at least as long as the first block's,
    [_update_single_stat] counts one prompt, counts it correct exactly when
    the merged list is true everywhere, counts one instruction per id of the
    first block, and counts correct as many instructions as the merged list
    has true values; the merged list holds, at each position, the [or] of the
    blocks. *)
Theorem update_single_stat_counts (stats_dict : IFEval.stats) (ids0 : list string)
        (f0 : list bool) (rest : list (list string * list bool)) :
  Forall (fun b => (length f0 <= length (snd b))%nat) rest ->
  exists stats' merged,
    IFEval._update_single_stat stats_dict (eval_block ids0 f0 :: blocks_of rest) = Ok stats' /\
    length merged = length f0 /\
    (forall i, (i < length f0)%nat ->
               merged !! i =
               Some (existsb (fun follows => nth i follows false) (f0 :: map snd rest))) /\
    IFEval.prompt_total stats' = IFEval.prompt_total stats_dict + 1 /\
    IFEval.prompt_correct stats' =
      IFEval.prompt_correct stats_dict + Z.b2z (forallb id merged) /\
    IFEval.instruction_total stats' =
      IFEval.instruction_total stats_dict + Z.of_nat (length ids0) /\
    IFEval.instruction_correct stats' =
      IFEval.instruction_correct stats_dict + Z.of_nat (length (List.filter id merged)).
Proof.
  intros Hlen.
  set (merged := fold_left or_lists (f0 :: map snd rest) f0).
  assert (Hr : all_readable f0 (f0 :: map snd rest) = true).
  { apply all_readable_longer. constructor; [lia|].
    apply List.Forall_forall. intros f Hf. apply in_map_iff in Hf.
    destruct Hf as (b & <- & Hb). rewrite List.Forall_forall in Hlen. apply Hlen, Hb. }
  unfold IFEval._update_single_stat.
  change (getitem (eval_block ids0 f0) "instruction_id_list")
    with (Ok (PList (map PStr ids0))).
  change (getitem (eval_block ids0 f0) "follow_instruction_list")
    with (Ok (PList (map PBool f0))).
  cbn [bind].
  rewrite (or_all_spec (eval_block ids0 f0 :: blocks_of rest) (f0 :: map snd rest)
             (blocks_have_follow_lists ((ids0, f0) :: rest)) f0).
  rewrite Hr. fold merged. cbn [bind py_iter py_len].
  rewrite sum_from_count. cbn [bind].
  destruct (tier0_loop_blocks ids0 merged
              {| IFEval.prompt_total := IFEval.prompt_total stats_dict + 1;
                 IFEval.prompt_correct :=
                   if forallb truthy (map PBool merged)
                   then IFEval.prompt_correct stats_dict + 1
                   else IFEval.prompt_correct stats_dict;
                 IFEval.instruction_total :=
                   IFEval.instruction_total stats_dict
                   + Z.of_nat (length (map PStr ids0));
                 IFEval.instruction_correct :=
                   IFEval.instruction_correct stats_dict
                   + (0 + Z.of_nat (length (List.filter id merged)));
                 IFEval.tier0_total := IFEval.tier0_total stats_dict;
                 IFEval.tier0_correct := IFEval.tier0_correct stats_dict |})
    as [stats' Hloop].
  exists stats', merged. split; [exact Hloop|].
  apply tier0_loop_counters in Hloop. simpl in Hloop.
  destruct Hloop as (H1 & H2 & H3 & H4).
  split; [apply fold_or_lists_length|]. split.
  { intros i Hi. unfold merged. rewrite merged_lookup.
    destruct (lookup_lt_is_Some_2 f0 i Hi) as [x Hx]. rewrite Hx. simpl.
    rewrite (nth_lookup_Some _ _ false _ Hx). destruct x; reflexivity. }
  rewrite H1, H2, H3, H4, forallb_truthy_bools, length_map.
  repeat split; try lia. destruct (forallb id merged); simpl; lia.
Qed.

(** * Instances *)

Lemma groups_are_aligned_witness :
  [Some (Json (math_record (PStr "5") false)); None] =
    map (fun file : list line => file !! 1%nat) [three_lines; one_line] /\
  length [math_record (PStr "5") false; MathEval.fill_up_missing] =
    length [three_lines; one_line].
Proof.
  apply (groups_are_aligned MathEval_Evaluator [three_lines; one_line] true 1
           [Some (Json (math_record (PStr "5") false)); None]
           [math_record (PStr "5") false; MathEval.fill_up_missing]);
    reflexivity.
Defined.

Lemma allow_incomplete_only_matters_when_data_is_missing_witness :
  compute_metrics MathEval_Evaluator [three_lines] true (-1) "first" =
  compute_metrics MathEval_Evaluator [three_lines] false (-1) "first".
Proof.
  apply (allow_incomplete_only_matters_when_data_is_missing MathEval_Evaluator
           [three_lines] (-1) "first").
  vm_compute. discriminate.
Defined.

Lemma max_samples_beyond_the_end_is_no_cutoff_witness :
  compute_metrics MathEval_Evaluator [three_lines; one_line] true 5 "best" =
  compute_metrics MathEval_Evaluator [three_lines; one_line] true (-1) "best".
Proof.
  apply (max_samples_beyond_the_end_is_no_cutoff MathEval_Evaluator
           [three_lines; one_line] true 5 (-1) "best").
  - vm_compute. discriminate.
  - lia.
Defined.

Lemma max_samples_is_truncation_witness :
  let r := compute_metrics MathEval_Evaluator [three_lines; one_line] true 2 "best" in
  let r' := compute_metrics MathEval_Evaluator
                            (map (take (Z.to_nat 2)) [three_lines; one_line])
                            true (-1) "best" in
  returned r = returned r' /\ updates r = updates r'.
Proof.
  apply (max_samples_is_truncation MathEval_Evaluator [three_lines; one_line]
           true 2 (-1) "best"); lia.
Defined.

Lemma math_best_run_never_aborts_witness :
  let r := compute_metrics MathEval_Evaluator [three_lines; empty_object_line]
                           true (-1) "best" in
  Forall (fun h => closed h = true) (file_handles r) /\
  match returned r with
  | Ok _ => (0 < updates r)%nat
  | Raise e => e = ZeroDivisionError /\ updates r = 0%nat
  end.
Proof.
  apply (math_best_run_never_aborts [three_lines; empty_object_line] (-1)).
  repeat (apply List.Forall_cons || apply List.Forall_nil); eexists; reflexivity.
Defined.

Lemma code_best_run_never_aborts_witness :
  let r := compute_metrics CodeEval_Evaluator [code_line; empty_object_line]
                           true (-1) "best" in
  Forall (fun h => closed h = true) (file_handles r) /\
  match returned r with
  | Ok _ => (0 < updates r)%nat
  | Raise e => e = ZeroDivisionError /\ updates r = 0%nat
  end.
Proof.
  apply (code_best_run_never_aborts [code_line; empty_object_line] (-1)).
  repeat (apply List.Forall_cons || apply List.Forall_nil); eexists; reflexivity.
Defined.

Lemma boolean_field_of_math_record (a : pyval) (c : bool) :
  boolean_field "is_correct" (math_record a c).
Proof. intros v H. injection H as <-. eauto. Qed.

Lemma math_counters_within_total_witness :
  let self := {| MathEval.total_correct := 1; MathEval.total_no_answer := 1;
                 MathEval.total := 2 |} in
  MathEval.total self =
    Z.of_nat (length [[math_record (PStr "4") true]; [math_record PNone false]]) /\
  0 <= MathEval.total_correct self <= MathEval.total self /\
  0 <= MathEval.total_no_answer self <= MathEval.total self.
Proof.
  apply (math_counters_within_total
           [[math_record (PStr "4") true]; [math_record PNone false]] "first").
  - repeat (apply List.Forall_cons || apply List.Forall_nil);
      apply boolean_field_of_math_record.
  - reflexivity.
Defined.

Lemma code_counters_within_total_witness :
  let self := {| CodeEval.total_correct := 1; CodeEval.total_correct_plus := 0;
                 CodeEval.total := 1 |} in
  CodeEval.total self =
    Z.of_nat (length [[PDict [("is_correct", PBool true);
                              ("is_correct-plus", PBool false)]]]) /\
  0 <= CodeEval.total_correct self <= CodeEval.total self /\
  0 <= CodeEval.total_correct_plus self <= CodeEval.total self.
Proof.
  apply (code_counters_within_total
           [[PDict [("is_correct", PBool true); ("is_correct-plus", PBool false)]]]
           "best").
  - repeat (apply List.Forall_cons || apply List.Forall_nil).
    split; intros v H; injection H as <-; eauto.
  - reflexivity.
Defined.

Lemma ifeval_prompt_totals_agree_witness :
  exists self,
    update_all IFEval_Evaluator IFEval.reset [[followed]; [not_followed]] "first" = Ok self /\
    IFEval.prompt_total (IFEval.strict_stats self) =
      Z.of_nat (length [[followed]; [not_followed]]) /\
    IFEval.prompt_total (IFEval.loose_stats self) =
      Z.of_nat (length [[followed]; [not_followed]]) /\
    0 <= IFEval.prompt_correct (IFEval.strict_stats self)
      <= Z.of_nat (length [[followed]; [not_followed]]) /\
    0 <= IFEval.prompt_correct (IFEval.loose_stats self)
      <= Z.of_nat (length [[followed]; [not_followed]]).
Proof.
  destruct (update_all IFEval_Evaluator IFEval.reset [[followed]; [not_followed]] "first")
    as [self|e] eqn:E; [|vm_compute in E; discriminate E].
  exists self. split; [reflexivity|].
  exact (ifeval_prompt_totals_agree [[followed]; [not_followed]] "first" self E).
Defined.

Lemma math_best_ignores_order_witness :
  MathEval.update MathEval.reset
                  [math_record PNone false; math_record (PStr "4") true] "best" =
  MathEval.update MathEval.reset
                  [math_record (PStr "4") true; math_record PNone false] "best".
Proof.
  apply (math_best_ignores_order MathEval.reset
           [math_record (PStr "4") true; math_record PNone false]
           [math_record PNone false; math_record (PStr "4") true]).
  - apply perm_swap.
  - repeat (apply List.Forall_cons || apply List.Forall_nil);
      split; eexists; reflexivity.
Defined.

Lemma code_best_ignores_order_witness :
  CodeEval.update CodeEval.reset
    [CodeEval.fill_up_missing;
     PDict [("is_correct", PBool true); ("is_correct-plus", PBool false)]] "best" =
  CodeEval.update CodeEval.reset
    [PDict [("is_correct", PBool true); ("is_correct-plus", PBool false)];
     CodeEval.fill_up_missing] "best".
Proof.
  apply (code_best_ignores_order CodeEval.reset
           [PDict [("is_correct", PBool true); ("is_correct-plus", PBool false)];
            CodeEval.fill_up_missing]
           [CodeEval.fill_up_missing;
            PDict [("is_correct", PBool true); ("is_correct-plus", PBool false)]]).
  - apply perm_swap.
  - repeat (apply List.Forall_cons || apply List.Forall_nil);
      split; eexists; reflexivity.
Defined.

Lemma math_all_missing_is_no_answer_witness :
  MathEval.update MathEval.reset (replicate 2 MathEval.fill_up_missing) "majority" =
    Ok {| MathEval.total_correct := MathEval.total_correct MathEval.reset;
          MathEval.total_no_answer := MathEval.total_no_answer MathEval.reset + 1;
          MathEval.total := MathEval.total MathEval.reset + 1 |}.
Proof.
  apply (math_all_missing_is_no_answer MathEval.reset 1 "majority").
  right. left. reflexivity.
Defined.

Lemma code_all_missing_passes_nothing_witness :
  CodeEval.update CodeEval.reset (replicate 2 CodeEval.fill_up_missing) "first" =
    Ok {| CodeEval.total_correct := CodeEval.total_correct CodeEval.reset;
          CodeEval.total_correct_plus := CodeEval.total_correct_plus CodeEval.reset;
          CodeEval.total := CodeEval.total CodeEval.reset + 1 |}.
Proof.
  apply (code_all_missing_passes_nothing CodeEval.reset 1 "first").
  right. reflexivity.
Defined.

Lemma unsupported_mode_is_rejected_witness :
  CodeEval.update CodeEval.reset [CodeEval.fill_up_missing] "median" =
    Raise (ValueError ("Unsupported mode " +:+ "median")) /\
  IFEval.update IFEval.reset [CodeEval.fill_up_missing] "median" =
    Raise (ValueError ("Unsupported mode " +:+ "median")) /\
  ("median" = "majority" \/
   MathEval.update MathEval.reset [CodeEval.fill_up_missing] "median" =
     Raise (ValueError ("Unsupported mode " +:+ "median"))).
Proof.
  apply (unsupported_mode_is_rejected "median" [CodeEval.fill_up_missing]
           MathEval.reset CodeEval.reset IFEval.reset); discriminate.
Defined.

Lemma best_merge_is_elementwise_or_witness :
  exists merged,
    IFEval.or_all (PList (map PBool [true; false]))
                  (eval_block ["a"; "b"] [true; false]
                   :: blocks_of [(["a"; "b"], [false; false; true])]) =
      Ok (PList (map PBool merged)) /\
    length merged = length [true; false] /\
    forall i, (i < length [true; false])%nat ->
              merged !! i =
              Some (existsb (fun follows => nth i follows false)
                            ([true; false] :: map snd [(["a"; "b"], [false; false; true])])).
Proof.
  apply (best_merge_is_elementwise_or ["a"; "b"] [true; false]
           [(["a"; "b"], [false; false; true])]).
  apply List.Forall_cons; [simpl; lia|apply List.Forall_nil].
Defined.

Lemma category_is_the_part_before_the_colon_witness :
  before_colon "punctuation" = "punctuation" /\
  before_colon ("punctuation" +:+ String ":" "no_comma") = "punctuation" /\
  colon_free (before_colon "no_comma") = true.
Proof.
  apply (category_is_the_part_before_the_colon "punctuation" "no_comma"). reflexivity.
Defined.

Lemma generate_adds_one_task_per_seed_witness :
  exists tasks,
    Generate.generate sample_get_cluster_config sample_check_if_mounted
                      sample_get_generation_command
                      ["++prompt_template=llama3"] None "/results" (Some "llama")
                      (Some "host:5000") "openai" None 1 "" 0 (Some 2) 7
                      None None None None None = Generate.Done tasks /\
    0 = 0 /\
    length tasks = Z.to_nat 2 /\
    NoDup (map Generate.task_name tasks) /\
    exists address extra_arguments,
      forall i, (i < Z.to_nat 2)%nat ->
        exists t,
          tasks !! i = Some t /\
          Generate.task_name t = "generate-rs" +:+ Generate.str_of_int (7 + Z.of_nat i) /\
          Generate.cmd t =
            sample_get_generation_command address
              (Generate.get_cmd "/results" extra_arguments (Some (7 + Z.of_nat i)) None) /\
          Generate.with_sandbox t = true.
Proof.
  eexists. split; [reflexivity|].
  apply (generate_adds_one_task_per_seed sample_get_cluster_config sample_check_if_mounted
           sample_get_generation_command
           ["++prompt_template=llama3"] None "/results" (Some "llama")
           (Some "host:5000") "openai" None 1 "" 0 2 7 None None None None None).
  - lia.
  - reflexivity.
Defined.

Lemma dependent_jobs_launch_nothing_witness :
  ([] : list Generate.task) = [] /\ exists n, Some (-1) = Some n /\ n < 0.
Proof.
  apply (dependent_jobs_launch_nothing sample_get_cluster_config sample_check_if_mounted
           sample_get_generation_command
           [] None "/results" None (Some "host:5000") "openai" None 1 "" 1 (Some (-1)) 0
           None None None None None []).
  - lia.
  - reflexivity.
Defined.

Lemma update_single_stat_counts_witness :
  exists stats' merged,
    IFEval._update_single_stat IFEval.empty_stats
      (eval_block ["a"; "b"] [true; false]
       :: blocks_of [(["a"; "b"], [false; false; true])]) = Ok stats' /\
    length merged = length [true; false] /\
    (forall i, (i < length [true; false])%nat ->
               merged !! i =
               Some (existsb (fun follows => nth i follows false)
                             ([true; false]
                              :: map snd [(["a"; "b"], [false; false; true])]))) /\
    IFEval.prompt_total stats' = IFEval.prompt_total IFEval.empty_stats + 1 /\
    IFEval.prompt_correct stats' =
      IFEval.prompt_correct IFEval.empty_stats + Z.b2z (forallb id merged) /\
    IFEval.instruction_total stats' =
      IFEval.instruction_total IFEval.empty_stats + Z.of_nat (length ["a"; "b"]) /\
    IFEval.instruction_correct stats' =
      IFEval.instruction_correct IFEval.empty_stats
      + Z.of_nat (length (List.filter id merged)).
Proof.
  apply (update_single_stat_counts IFEval.empty_stats ["a"; "b"] [true; false]
           [(["a"; "b"], [false; false; true])]).
  apply List.Forall_cons; [simpl; lia|apply List.Forall_nil].
Defined.
